(** * TerrainResources: the texture image unit allocator of osgEarth

    Shallow embedding of [src/osgEarth/TextureCompositor.cpp].  The two
    containers of the class, [_globallyReservedUnits] (a [std::set<int>]) and
    [_perLayerReservedUnits] (a map from [const Layer*] to [std::set<int>]),
    become a [gset Z] and a [gmap] of such sets.  Every member function
    works on them under [_reservedUnitsMutex], so a call is modelled as one
    state transformer and a client as a sequence of calls. *)

From stdpp Require Import base numbers option list strings gmap sets fin_maps.

Local Open Scope Z_scope.
Set Warnings "-clear-no-such-hyp".

(** ** Data model *)

(** A [const Layer*]: layers are told apart by address only; [0L] is the
    null pointer. *)
Abbreviation Layer := N.
Definition nullLayer : Layer := 0%N.

(** [typedef std::set<int> ReservedUnits]. *)
Abbreviation ReservedUnits := (gset Z).

(** The map type of [_perLayerReservedUnits]. *)
Abbreviation PerLayerReservedUnits := (gmap N (gset Z)).

Record TerrainResources : Type := mkTerrainResources {
  _globallyReservedUnits : gset Z;
  _perLayerReservedUnits : gmap N (gset Z)
}.

(** A [TextureImageUnitReservation]: the unit, the layer it was reserved
    under and the [observer_ptr] back to the allocator, kept as the address
    of the allocator ([0] when it was never set). *)
Record TextureImageUnitReservation : Type := mkReservation {
  _unit : Z;
  _layer : N;
  _res : N
}.

(** [TextureImageUnitReservation::TextureImageUnitReservation()] *)
Definition newReservation : TextureImageUnitReservation :=
  mkReservation (-1) nullLayer 0%N.

(** [TerrainResources::TerrainResources()]: both containers start empty. *)
Definition newTerrainResources : TerrainResources :=
  mkTerrainResources ∅ ∅.

(** ** Machine integers *)

(** The scan index is an [unsigned]; the sets hold [int].  Every use of the
    index as a set element converts it: values up to [INT_MAX] are kept and
    larger ones wrap around modulo [2^32]. *)
Definition INT_MAX : Z := 2147483647.

Definition to_int (i : Z) : Z :=
  if decide (i <= INT_MAX) then i else i - 4294967296.

(** ** Diagnostics *)

(** The messages sent to the [OE_INFO] and [OE_WARN] sinks, kept as events
    that carry the values streamed into the message. *)
Inductive LogRecord : Type :=
  | (** [OE_INFO "Texture unit " i " reserved for " requestor] *)
    InfoReserved (i : Z) (requestor : string)
  | (** [OE_INFO "Texture unit " i " reserved by Layer " name " for " requestor] *)
    InfoReservedByLayer (i : Z) (layer : N) (requestor : string)
  | (** [OE_INFO "Texture unit " i " reserved (on layer " name ") for " requestor] *)
    InfoReservedOnLayer (i : Z) (layer : N) (requestor : string)
  | (** [OE_WARN "ILLEGAL USAGE: layer must be non-null"] *)
    WarnIllegalUsage.

(** [if ( requestor ) OE_INFO << ...]: a null requestor logs nothing. *)
Definition info_if (requestor : option string) (msg : string → LogRecord)
  : list LogRecord :=
  match requestor with
  | Some r => [msg r]
  | None => []
  end.

(** ** The first-fit scan *)

(** [for (unsigned i = start; i < maxUnits; ++i) if (taken.find(i) == taken.end()) ...]
    with [fuel] iterations left; the result is the index at which the loop
    body returns, if it does. *)
Fixpoint first_unused (taken : gset Z) (i : Z) (fuel : nat) : option Z :=
  match fuel with
  | O => None
  | S fuel' =>
      if decide (to_int i ∈ taken) then first_unused taken (i + 1) fuel'
      else Some i
  end.

(** The units in use for a global request: [_globallyReservedUnits], then the
    set of every entry of [_perLayerReservedUnits] in turn. *)
Fixpoint insert_all (taken : gset Z) (entries : list (N * gset Z)) : gset Z :=
  match entries with
  | [] => taken
  | (_, units) :: rest => insert_all (taken ∪ units) rest
  end.

Definition taken_global (s : TerrainResources) : gset Z :=
  insert_all (_globallyReservedUnits s) (map_to_list (_perLayerReservedUnits s)).

(** The units in use for a request bound to [layer]:
    [_globallyReservedUnits] and the set found under [layer]. *)
Definition taken_layer (s : TerrainResources) (layer : N) : gset Z :=
  _globallyReservedUnits s ∪ default ∅ (_perLayerReservedUnits s !! layer).

(** ** Reservations *)

(** What a reserve call hands back: its [bool] result, the out parameter, the
    allocator afterwards and what was logged. *)
Record Reserved (A : Type) : Type := mkReserved {
  ok : bool;
  out : A;
  after : TerrainResources;
  logged : list LogRecord
}.
Arguments mkReserved {A} _ _ _ _.
Arguments ok {A} _.
Arguments out {A} _.
Arguments after {A} _.
Arguments logged {A} _.

(** [bool reserveTextureImageUnit(int& out_unit, const char* requestor)] *)
Definition reserveTextureImageUnit
    (maxUnits : Z) (requestor : option string) (s : TerrainResources)
  : Reserved Z :=
  let taken := taken_global s in
  match first_unused taken 0 (Z.to_nat maxUnits) with
  | Some i =>
      mkReserved true (to_int i)
        (mkTerrainResources (_globallyReservedUnits s ∪ {[ to_int i ]})
                            (_perLayerReservedUnits s))
        (info_if requestor (InfoReserved i))
  | None => mkReserved false (-1) s []
  end.

(** [bool reserveTextureImageUnit(int& out_unit, const Layer* layer, const char* requestor)].
    [_perLayerReservedUnits[layer]] creates the entry of [layer] when there
    is none, before the scan. *)
Definition reserveTextureImageUnit_layer
    (maxUnits : Z) (layer : N) (requestor : option string) (s : TerrainResources)
  : Reserved Z :=
  if decide (layer = nullLayer) then reserveTextureImageUnit maxUnits requestor s
  else
    let layerUnits := default ∅ (_perLayerReservedUnits s !! layer) in
    let perLayer := <[layer := layerUnits]> (_perLayerReservedUnits s) in
    let taken := _globallyReservedUnits s ∪ layerUnits in
    match first_unused taken 0 (Z.to_nat maxUnits) with
    | Some i =>
        mkReserved true (to_int i)
          (mkTerrainResources (_globallyReservedUnits s)
             (<[layer := layerUnits ∪ {[ to_int i ]}]> perLayer))
          (info_if requestor (InfoReservedByLayer i layer))
    | None =>
        mkReserved false (-1)
          (mkTerrainResources (_globallyReservedUnits s) perLayer) []
    end.

(** [bool reserveTextureImageUnit(TextureImageUnitReservation& reservation, const char* requestor)];
    [this] is the address of the allocator. *)
Definition reserveTextureImageUnit_reservation
    (this : N) (maxUnits : Z) (reservation : TextureImageUnitReservation)
    (requestor : option string) (s : TerrainResources)
  : Reserved TextureImageUnitReservation :=
  let taken := taken_global s in
  match first_unused taken 0 (Z.to_nat maxUnits) with
  | Some i =>
      mkReserved true (mkReservation (to_int i) nullLayer this)
        (mkTerrainResources (_globallyReservedUnits s ∪ {[ to_int i ]})
                            (_perLayerReservedUnits s))
        (info_if requestor (InfoReserved i))
  | None =>
      mkReserved false
        (mkReservation (-1) (_layer reservation) (_res reservation)) s []
  end.

(** [bool reserveTextureImageUnitForLayer(TextureImageUnitReservation& reservation, const Layer* layer, const char* requestor)] *)
Definition reserveTextureImageUnitForLayer
    (this : N) (maxUnits : Z) (reservation : TextureImageUnitReservation)
    (layer : N) (requestor : option string) (s : TerrainResources)
  : Reserved TextureImageUnitReservation :=
  if decide (layer = nullLayer) then
    mkReserved false reservation s [WarnIllegalUsage]
  else
    let layerReservedUnits := default ∅ (_perLayerReservedUnits s !! layer) in
    let perLayer := <[layer := layerReservedUnits]> (_perLayerReservedUnits s) in
    let taken := _globallyReservedUnits s ∪ layerReservedUnits in
    match first_unused taken 0 (Z.to_nat maxUnits) with
    | Some i =>
        mkReserved true (mkReservation (to_int i) layer this)
          (mkTerrainResources (_globallyReservedUnits s)
             (<[layer := layerReservedUnits ∪ {[ to_int i ]}]> perLayer))
          (info_if requestor (InfoReservedOnLayer i layer))
    | None =>
        mkReserved false
          (mkReservation (-1) (_layer reservation) (_res reservation))
          (mkTerrainResources (_globallyReservedUnits s) perLayer) []
    end.

(** ** Releases *)

(** [void releaseTextureImageUnit(int unit)] *)
Definition releaseTextureImageUnit (unit : Z) (s : TerrainResources)
  : TerrainResources :=
  mkTerrainResources (_globallyReservedUnits s ∖ {[ unit ]})
                     (_perLayerReservedUnits s).

(** [void releaseTextureImageUnit(int unit, const Layer* layer)].  The call
    made for a null [layer] is not followed by a [return]: the lookup of
    [layer] in [_perLayerReservedUnits] runs in both cases. *)
Definition releaseTextureImageUnit_layer
    (unit : Z) (layer : N) (s : TerrainResources) : TerrainResources :=
  let s1 := if decide (layer = nullLayer) then releaseTextureImageUnit unit s
            else s in
  match _perLayerReservedUnits s1 !! layer with
  | Some units =>
      let units' := units ∖ {[ unit ]} in
      if decide (units' = ∅) then
        mkTerrainResources (_globallyReservedUnits s1)
                           (delete layer (_perLayerReservedUnits s1))
      else
        mkTerrainResources (_globallyReservedUnits s1)
                           (<[layer := units']> (_perLayerReservedUnits s1))
  | None => s1
  end.

(** ** Off-limits units *)

(** The scan of [setTextureImageUnitOffLimits] over the entries of
    [_perLayerReservedUnits]: does some layer hold [unit]? *)
Fixpoint in_use_by_a_layer (unit : Z) (entries : list (N * gset Z)) : bool :=
  match entries with
  | [] => false
  | (_, units) :: rest =>
      if decide (unit ∈ units) then true else in_use_by_a_layer unit rest
  end.

(** [bool setTextureImageUnitOffLimits(int unit)] *)
Definition setTextureImageUnitOffLimits (unit : Z) (s : TerrainResources)
  : bool * TerrainResources :=
  if decide (unit ∈ _globallyReservedUnits s) then (false, s)
  else if in_use_by_a_layer unit (map_to_list (_perLayerReservedUnits s))
  then (false, s)
  else (true, mkTerrainResources (_globallyReservedUnits s ∪ {[ unit ]})
                                 (_perLayerReservedUnits s)).

(** ** The reservation's destructor *)

(** [TextureImageUnitReservation::~TextureImageUnitReservation()], over the
    allocators that are alive, by address: [_res.lock(res)] succeeds when the
    allocator the reservation points to is still one of them. *)
Definition dropReservation
    (r : TextureImageUnitReservation) (alive : gmap N TerrainResources)
  : gmap N TerrainResources :=
  if decide (0 <= _unit r) then
    match alive !! _res r with
    | Some res =>
        <[_res r := releaseTextureImageUnit_layer (_unit r) (_layer r) res]> alive
    | None => alive
    end
  else alive.

(** ** Calls and traces *)

(** One call of a member function by a client, with the value the
    capabilities report for [getMaxGPUTextureUnits()] at that moment. *)
Inductive Call : Type :=
  | Reserve (maxUnits : Z) (requestor : option string)
  | ReserveLayer (maxUnits : Z) (layer : N) (requestor : option string)
  | ReserveHandle (this : N) (maxUnits : Z)
      (reservation : TextureImageUnitReservation) (requestor : option string)
  | ReserveHandleForLayer (this : N) (maxUnits : Z)
      (reservation : TextureImageUnitReservation) (layer : N)
      (requestor : option string)
  | Release (unit : Z)
  | ReleaseLayer (unit : Z) (layer : N)
  | SetOffLimits (unit : Z).

(** The allocator after a call. *)
Definition step (c : Call) (s : TerrainResources) : TerrainResources :=
  match c with
  | Reserve m rq => after (reserveTextureImageUnit m rq s)
  | ReserveLayer m l rq => after (reserveTextureImageUnit_layer m l rq s)
  | ReserveHandle this m r rq =>
      after (reserveTextureImageUnit_reservation this m r rq s)
  | ReserveHandleForLayer this m r l rq =>
      after (reserveTextureImageUnitForLayer this m r l rq s)
  | Release u => releaseTextureImageUnit u s
  | ReleaseLayer u l => releaseTextureImageUnit_layer u l s
  | SetOffLimits u => (setTextureImageUnitOffLimits u s).2
  end.

(** The unit a call hands to its caller: that of a reserve that returned
    [true]; nothing for a failed reserve and for the other calls. *)
Definition granted (c : Call) (s : TerrainResources) : option Z :=
  match c with
  | Reserve m rq =>
      let r := reserveTextureImageUnit m rq s in
      if ok r then Some (out r) else None
  | ReserveLayer m l rq =>
      let r := reserveTextureImageUnit_layer m l rq s in
      if ok r then Some (out r) else None
  | ReserveHandle this m h rq =>
      let r := reserveTextureImageUnit_reservation this m h rq s in
      if ok r then Some (_unit (out r)) else None
  | ReserveHandleForLayer this m h l rq =>
      let r := reserveTextureImageUnitForLayer this m h l rq s in
      if ok r then Some (_unit (out r)) else None
  | _ => None
  end.

(** A sequence of calls, first call first. *)
Definition run (cs : list Call) (s : TerrainResources) : TerrainResources :=
  foldl (λ s c, step c s) s cs.

(** The states an allocator can be in: those a client can drive a newly
    constructed one to. *)
Inductive reachable : TerrainResources → Prop :=
  | reachable_new : reachable newTerrainResources
  | reachable_step c s : reachable s → reachable (step c s).

(** ** Vocabulary of the specification *)

(** [u] is the first fit among [maxUnits] units of which [taken] are in use:
    the smallest index of [[0, maxUnits)] outside [taken]. *)
Definition first_fit (maxUnits : Z) (taken : gset Z) (u : Z) : Prop :=
  (0 <= u ∧ u < maxUnits) ∧ (u ∉ taken) ∧
  (∀ j, 0 <= j → j < maxUnits → j ∉ taken → u <= j).

(** Every index of [[0, maxUnits)] is in use. *)
Definition exhausted (maxUnits : Z) (taken : gset Z) : Prop :=
  ∀ j, 0 <= j → j < maxUnits → j ∈ taken.

(** The failure protocol of a reserve that scanned [taken] and handed back
    the result [ok] and the unit [unit]: it fails exactly on exhaustion, a
    failure leaves [-1] in the unit, a success a unit of [[0, maxUnits)]. *)
Definition fails_only_exhausted
    (maxUnits : Z) (taken : gset Z) (ok : bool) (unit : Z) : Prop :=
  (ok = false ↔ exhausted maxUnits taken) ∧
  (ok = false → unit = -1) ∧
  (ok = true → 0 <= unit ∧ unit < maxUnits).

(** The set kept for [layer]; a layer without an entry holds no unit. *)
Definition units_of (s : TerrainResources) (layer : N) : gset Z :=
  default ∅ (_perLayerReservedUnits s !! layer).

(** [unit] is in neither [_globallyReservedUnits] nor the set of any layer. *)
Definition free_everywhere (unit : Z) (s : TerrainResources) : Prop :=
  (unit ∉ _globallyReservedUnits s) ∧
  (∀ l units, _perLayerReservedUnits s !! l = Some units → unit ∉ units).

(** What the member functions keep true of the two containers: no entry is
    kept under the null layer, and no unit is at once in
    [_globallyReservedUnits] and in the set of a layer. *)
Definition consistent (s : TerrainResources) : Prop :=
  _perLayerReservedUnits s !! nullLayer = None ∧
  ∀ l units, _perLayerReservedUnits s !! l = Some units →
             _globallyReservedUnits s ## units.

(** The calls that take [unit] out of [_globallyReservedUnits]: the global
    release, and the layer-bound release called with a null layer. *)
Definition releases_globally (unit : Z) (c : Call) : Prop :=
  c = Release unit ∨ c = ReleaseLayer unit nullLayer.

(** The calls that release under [layer]. *)
Definition releases_for_layer (layer : N) (c : Call) : Prop :=
  ∃ unit, c = ReleaseLayer unit layer.

(** The unit a call hands out, as a set: empty when it hands out none. *)
Definition granted_set (c : Call) (s : TerrainResources) : gset Z :=
  from_option singleton ∅ (granted c s).

(** The two release calls. *)
Definition is_release (c : Call) : bool :=
  match c with
  | Release _ | ReleaseLayer _ _ => true
  | _ => false
  end.

(** The members of [[0, k)], the units [k] global reserves take from a new
    allocator. *)
Definition first_units (k : nat) : gset Z :=
  list_to_set (seqZ 0 (Z.of_nat k)).

(** A call that stays within [bound] units: a reserve that scans at most
    [bound] indices, or an off-limits marking of a unit of [[0, bound)].
    Releases always do. *)
Definition call_within (bound : Z) (c : Call) : Prop :=
  match c with
  | Reserve m _ | ReserveLayer m _ _ | ReserveHandle _ m _ _
  | ReserveHandleForLayer _ m _ _ _ => m <= bound
  | SetOffLimits u => 0 <= u ∧ u < bound
  | Release _ | ReleaseLayer _ _ => True
  end.

(** [INT_MIN], the [int] that the index [INT_MAX + 1] is converted to. *)
Definition INT_MIN : Z := -2147483648.

(** An allocator on which every unit number from 0 to [INT_MAX] has been
    marked off limits, one call each. *)
Definition every_index_off_limits : TerrainResources :=
  run (SetOffLimits <$> seqZ 0 (INT_MAX + 1)) newTerrainResources.

(** ** Scenarios of the specification, run on the model *)

Definition L1 : N := 1%N.
Definition L2 : N := 2%N.

Example scenario_S1 :
  let r0 := reserveTextureImageUnit 4 None newTerrainResources in
  let r1 := reserveTextureImageUnit 4 None (after r0) in
  let r2 := reserveTextureImageUnit 4 None (after r1) in
  let r3 := reserveTextureImageUnit 4 None (after r2) in
  let r4 := reserveTextureImageUnit 4 None (after r3) in
  let r5 := reserveTextureImageUnit 4 None (releaseTextureImageUnit 1 (after r4)) in
  (out r0, out r1, out r2, out r3, out r4, ok r4, out r5) = (0, 1, 2, 3, -1, false, 1).
Proof. vm_compute. reflexivity. Qed.

Example scenario_S2 :
  let r0 := reserveTextureImageUnit_layer 4 L1 None newTerrainResources in
  let r1 := reserveTextureImageUnit_layer 4 L2 None (after r0) in
  let r2 := reserveTextureImageUnit_layer 4 L1 None (after r1) in
  let r3 := reserveTextureImageUnit_layer 4 L2 None (after r2) in
  (out r0, out r1, out r2, out r3) = (0, 0, 1, 1).
Proof. vm_compute. reflexivity. Qed.

Example scenario_S3 :
  let r0 := reserveTextureImageUnit 4 None newTerrainResources in
  let r1 := reserveTextureImageUnit_layer 4 L1 None (after r0) in
  (out r0, out r1) = (0, 1).
Proof. vm_compute. reflexivity. Qed.

Example scenario_S4 :
  let m := setTextureImageUnitOffLimits 2 newTerrainResources in
  let r0 := reserveTextureImageUnit 4 None m.2 in
  let r1 := reserveTextureImageUnit 4 None (after r0) in
  let r2 := reserveTextureImageUnit 4 None (after r1) in
  let r3 := reserveTextureImageUnit 4 None (after r2) in
  (m.1, out r0, out r1, out r2, out r3,
   (setTextureImageUnitOffLimits 0 (after r3)).1) = (true, 0, 1, 3, -1, false).
Proof. vm_compute. reflexivity. Qed.

Example scenario_S5 :
  let r0 := reserveTextureImageUnitForLayer 7 4 newReservation L1 None
              newTerrainResources in
  let alive := dropReservation (out r0) {[ 7%N := after r0 ]} in
  (_unit (out r0),
   out <$> (reserveTextureImageUnit_layer 4 L1 None <$> alive !! 7%N))
  = (0, Some 0).
Proof. vm_compute. reflexivity. Qed.

Example scenario_S6 :
  let r0 := reserveTextureImageUnitForLayer 7 4 newReservation L1 None
              newTerrainResources in
  dropReservation (out r0) ∅ = ∅.
Proof. vm_compute. reflexivity. Qed.

(** * Properties *)

(** ** The conversion and the scan *)

Lemma to_int_small (i : Z) : i <= INT_MAX → to_int i = i.
Proof. intros Hi. unfold to_int. by rewrite decide_True. Qed.

Lemma to_nat_succ (m : Z) : 1 <= m → ∃ n, Z.to_nat m = S n.
Proof.
  intros Hm. exists (Z.to_nat (m - 1)).
  rewrite <- Z2Nat.inj_succ by lia. f_equal. lia.
Qed.

(** Where the scan stops: at an index it did not find, with every index
    before it found. *)
Lemma first_unused_Some (taken : gset Z) (fuel : nat) :
  ∀ i k, first_unused taken i fuel = Some k →
    (i <= k ∧ k < i + Z.of_nat fuel) ∧ (to_int k ∉ taken) ∧
    (∀ j, i <= j < k → to_int j ∈ taken).
Proof.
  induction fuel as [|fuel IH]; intros i k; simpl; [done|].
  destruct (decide (to_int i ∈ taken)) as [Hin|Hout].
  - intros Hk. destruct (IH _ _ Hk) as (Hrange & Hfree & Hbelow).
    split; [lia|]. split; [done|].
    intros j Hj. destruct (decide (j = i)) as [->|Hne]; [done|].
    apply Hbelow. lia.
  - intros [= <-]. split; [lia|]. split; [done|]. intros j Hj. lia.
Qed.

(** The scan runs off the end exactly when it found every index. *)
Lemma first_unused_None (taken : gset Z) (fuel : nat) :
  ∀ i, first_unused taken i fuel = None ↔
       ∀ j, i <= j < i + Z.of_nat fuel → to_int j ∈ taken.
Proof.
  induction fuel as [|fuel IH]; intros i; simpl.
  - split; [intros _ j Hj; lia | done].
  - destruct (decide (to_int i ∈ taken)) as [Hin|Hout].
    + rewrite IH. split; intros H j Hj.
      * destruct (decide (j = i)) as [->|Hne]; [done|]. apply H. lia.
      * apply H. lia.
    + split; [done|]. intros H. exfalso. apply Hout, H. lia.
Qed.

(** ** The sets of units in use *)

Lemma elem_of_insert_all (x : Z) (entries : list (N * gset Z)) :
  ∀ taken, x ∈ insert_all taken entries ↔
           x ∈ taken ∨ ∃ l units, (l, units) ∈ entries ∧ x ∈ units.
Proof.
  induction entries as [|[l units] rest IH]; intros taken; simpl.
  - split; [by left|]. intros [H|(l & units & H & _)]; [done|].
    by apply elem_of_nil in H.
  - rewrite IH, elem_of_union. split.
    + intros [[H|H]|(l' & units' & H & Hx)].
      * by left.
      * right. exists l, units. split; [left|done].
      * right. exists l', units'. split; [by right|done].
    + intros [H|(l' & units' & H & Hx)]; [by left; left|].
      apply elem_of_cons in H as [[= -> ->]|H]; [by left; right|].
      right. by exists l', units'.
Qed.

Lemma elem_of_taken_global (x : Z) (s : TerrainResources) :
  x ∈ taken_global s ↔
  x ∈ _globallyReservedUnits s ∨
  ∃ l units, _perLayerReservedUnits s !! l = Some units ∧ x ∈ units.
Proof.
  unfold taken_global. rewrite elem_of_insert_all.
  split; (intros [H|(l & units & H & Hx)]; [by left|right; exists l, units]).
  - by apply elem_of_map_to_list in H.
  - split; [by apply elem_of_map_to_list|done].
Qed.

Lemma elem_of_taken_layer (x : Z) (s : TerrainResources) (layer : N) :
  x ∈ taken_layer s layer ↔
  x ∈ _globallyReservedUnits s ∨
  ∃ units, _perLayerReservedUnits s !! layer = Some units ∧ x ∈ units.
Proof.
  unfold taken_layer. rewrite elem_of_union.
  destruct (_perLayerReservedUnits s !! layer) as [units|]; simpl.
  - split; (intros [H|H]; [by left|right]); [by exists units|].
    by destruct H as (? & [= <-] & ?).
  - split; (intros [H|H]; [by left|]); [set_solver|].
    by destruct H as (? & [=] & ?).
Qed.

Lemma in_use_by_a_layer_true (unit : Z) (entries : list (N * gset Z)) :
  in_use_by_a_layer unit entries = true ↔
  ∃ l units, (l, units) ∈ entries ∧ unit ∈ units.
Proof.
  induction entries as [|[l units] rest IH]; simpl.
  - split; [done|]. intros (l & units & H & _). by apply elem_of_nil in H.
  - destruct (decide (unit ∈ units)) as [Hin|Hout].
    + split; [|done]. intros _. exists l, units. split; [left|done].
    + rewrite IH. split; intros (l' & units' & H & Hx).
      * exists l', units'. split; [by right|done].
      * apply elem_of_cons in H as [[= -> ->]|H]; [done|].
        by exists l', units'.
Qed.

Lemma in_use_by_a_layer_map (unit : Z) (m : gmap N (gset Z)) :
  in_use_by_a_layer unit (map_to_list m) = true ↔
  ∃ l units, m !! l = Some units ∧ unit ∈ units.
Proof.
  rewrite in_use_by_a_layer_true.
  split; intros (l & units & H & Hx); exists l, units; (split; [|done]).
  - by apply elem_of_map_to_list in H.
  - by apply elem_of_map_to_list.
Qed.

(** Within the [int] range the scan is the first fit of the specification. *)
Lemma scan_first_fit (maxUnits : Z) (taken : gset Z) (i : Z) :
  maxUnits <= INT_MAX + 1 →
  first_unused taken 0 (Z.to_nat maxUnits) = Some i →
  to_int i = i ∧ first_fit maxUnits taken i.
Proof.
  intros Hmax Hscan.
  apply first_unused_Some in Hscan as ((Hlo & Hhi) & Hfree & Hbelow).
  assert (i < maxUnits) as Hi by lia.
  assert (to_int i = i) as Hconv by (apply to_int_small; lia).
  split; [done|]. rewrite Hconv in Hfree.
  split; [lia|]. split; [done|].
  intros j Hj0 Hjm Hj. destruct (decide (i <= j)) as [|Hlt]; [done|].
  exfalso. apply Hj. rewrite <- (to_int_small j) by lia. apply Hbelow. lia.
Qed.

Lemma scan_exhausted (maxUnits : Z) (taken : gset Z) :
  maxUnits <= INT_MAX + 1 →
  first_unused taken 0 (Z.to_nat maxUnits) = None ↔ exhausted maxUnits taken.
Proof.
  intros Hmax. rewrite first_unused_None. unfold exhausted.
  split; intros H j.
  - intros Hj0 Hjm. rewrite <- (to_int_small j) by lia. apply H. lia.
  - intros Hj. rewrite to_int_small by lia. apply H; lia.
Qed.

(** ** What each reserve form does, by the outcome of its scan *)

Lemma reserve_inv (maxUnits : Z) (rq : option string) (s : TerrainResources) :
  let r := reserveTextureImageUnit maxUnits rq s in
  (∃ i, first_unused (taken_global s) 0 (Z.to_nat maxUnits) = Some i ∧
        ok r = true ∧ out r = to_int i ∧
        after r = mkTerrainResources
                    (_globallyReservedUnits s ∪ {[ to_int i ]})
                    (_perLayerReservedUnits s)) ∨
  (first_unused (taken_global s) 0 (Z.to_nat maxUnits) = None ∧
   ok r = false ∧ out r = -1 ∧ after r = s).
Proof.
  unfold reserveTextureImageUnit.
  destruct (first_unused _ _ _) as [i|]; simpl; [left; by exists i|by right].
Qed.

Lemma reserve_layer_inv
    (maxUnits : Z) (layer : N) (rq : option string) (s : TerrainResources) :
  layer ≠ nullLayer →
  let r := reserveTextureImageUnit_layer maxUnits layer rq s in
  (∃ i, first_unused (taken_layer s layer) 0 (Z.to_nat maxUnits) = Some i ∧
        ok r = true ∧ out r = to_int i ∧
        after r = mkTerrainResources (_globallyReservedUnits s)
                    (<[layer := units_of s layer ∪ {[ to_int i ]}]>
                       (_perLayerReservedUnits s))) ∨
  (first_unused (taken_layer s layer) 0 (Z.to_nat maxUnits) = None ∧
   ok r = false ∧ out r = -1 ∧
   after r = mkTerrainResources (_globallyReservedUnits s)
               (<[layer := units_of s layer]> (_perLayerReservedUnits s))).
Proof.
  intros Hnn. unfold reserveTextureImageUnit_layer, taken_layer, units_of.
  rewrite decide_False by done.
  destruct (first_unused _ _ _) as [i|]; simpl; [left; exists i|by right].
  by rewrite insert_insert_eq.
Qed.

(** The two reservation forms follow the raw forms: same result, same unit,
    same allocator afterwards. *)
Lemma reservation_follows_raw
    (this : N) (maxUnits : Z) (h : TextureImageUnitReservation)
    (rq : option string) (s : TerrainResources) :
  let r := reserveTextureImageUnit_reservation this maxUnits h rq s in
  let r' := reserveTextureImageUnit maxUnits rq s in
  ok r = ok r' ∧ _unit (out r) = out r' ∧ after r = after r' ∧
  logged r = logged r'.
Proof.
  unfold reserveTextureImageUnit_reservation, reserveTextureImageUnit.
  by destruct (first_unused _ _ _).
Qed.

Lemma forLayer_follows_raw
    (this : N) (maxUnits : Z) (h : TextureImageUnitReservation) (layer : N)
    (rq : option string) (s : TerrainResources) :
  layer ≠ nullLayer →
  let r := reserveTextureImageUnitForLayer this maxUnits h layer rq s in
  let r' := reserveTextureImageUnit_layer maxUnits layer rq s in
  ok r = ok r' ∧ _unit (out r) = out r' ∧ after r = after r'.
Proof.
  intros Hnn.
  unfold reserveTextureImageUnitForLayer, reserveTextureImageUnit_layer.
  rewrite !decide_False by done.
  by destruct (first_unused _ _ _).
Qed.

(** ** First fit *)

(** C1, as the code has it.  First-fit policy, for every allocator state
    and every [maxUnits] up to [INT_MAX + 1], the indices an [int] unit
    number can hold.  A reserve succeeds as soon as some index of
    [[0, maxUnits)] is outside the taken set of its scope; a successful
    reserve returns the smallest such index and inserts it into the set of
    that scope: [_globallyReservedUnits] for the global forms, the set of the
    layer for the layer-bound forms.  The global taken set is
    [_globallyReservedUnits] together with the set of every layer; the
    layer-bound one is [_globallyReservedUnits] together with the set of the
    requesting layer only. *)
Theorem first_fit_policy (maxUnits : Z) (s : TerrainResources) :
  maxUnits <= INT_MAX + 1 →
  (∀ x, x ∈ taken_global s ↔
        x ∈ _globallyReservedUnits s ∨
        ∃ l units, _perLayerReservedUnits s !! l = Some units ∧ x ∈ units) ∧
  (∀ layer x, x ∈ taken_layer s layer ↔
        x ∈ _globallyReservedUnits s ∨
        ∃ units, _perLayerReservedUnits s !! layer = Some units ∧ x ∈ units) ∧
  (∀ rq, let r := reserveTextureImageUnit maxUnits rq s in
     (∀ j, 0 <= j → j < maxUnits → j ∉ taken_global s → ok r = true) ∧
     (ok r = true →
      first_fit maxUnits (taken_global s) (out r) ∧
      after r = mkTerrainResources (_globallyReservedUnits s ∪ {[ out r ]})
                                   (_perLayerReservedUnits s))) ∧
  (∀ this h rq,
     let r := reserveTextureImageUnit_reservation this maxUnits h rq s in
     (∀ j, 0 <= j → j < maxUnits → j ∉ taken_global s → ok r = true) ∧
     (ok r = true →
      first_fit maxUnits (taken_global s) (_unit (out r)) ∧
      after r = mkTerrainResources
                  (_globallyReservedUnits s ∪ {[ _unit (out r) ]})
                  (_perLayerReservedUnits s))) ∧
  (∀ layer rq, layer ≠ nullLayer →
     let r := reserveTextureImageUnit_layer maxUnits layer rq s in
     (∀ j, 0 <= j → j < maxUnits → j ∉ taken_layer s layer → ok r = true) ∧
     (ok r = true →
      first_fit maxUnits (taken_layer s layer) (out r) ∧
      after r = mkTerrainResources (_globallyReservedUnits s)
                  (<[layer := units_of s layer ∪ {[ out r ]}]>
                     (_perLayerReservedUnits s)))) ∧
  (∀ this h layer rq, layer ≠ nullLayer →
     let r := reserveTextureImageUnitForLayer this maxUnits h layer rq s in
     (∀ j, 0 <= j → j < maxUnits → j ∉ taken_layer s layer → ok r = true) ∧
     (ok r = true →
      first_fit maxUnits (taken_layer s layer) (_unit (out r)) ∧
      after r = mkTerrainResources (_globallyReservedUnits s)
                  (<[layer := units_of s layer ∪ {[ _unit (out r) ]}]>
                     (_perLayerReservedUnits s)))).
Proof.
  intros Hmax.
  assert (∀ rq, let r := reserveTextureImageUnit maxUnits rq s in
     (∀ j, 0 <= j → j < maxUnits → j ∉ taken_global s → ok r = true) ∧
     (ok r = true →
      first_fit maxUnits (taken_global s) (out r) ∧
      after r = mkTerrainResources (_globallyReservedUnits s ∪ {[ out r ]})
                                   (_perLayerReservedUnits s))) as Hglobal.
  { intros rq r. subst r.
    destruct (reserve_inv maxUnits rq s)
      as [(i & Hscan & Hok & Hout & Hafter)|(Hscan & Hfail & _)].
    - split; [done|]. intros _.
      destruct (scan_first_fit _ _ _ Hmax Hscan) as [Hconv Hfit].
      rewrite Hout, Hafter, Hconv. done.
    - apply (scan_exhausted _ _ Hmax) in Hscan.
      split; [|by rewrite Hfail].
      intros j Hj0 Hjm Hfree. by destruct (Hfree (Hscan j Hj0 Hjm)). }
  assert (∀ layer rq, layer ≠ nullLayer →
     let r := reserveTextureImageUnit_layer maxUnits layer rq s in
     (∀ j, 0 <= j → j < maxUnits → j ∉ taken_layer s layer → ok r = true) ∧
     (ok r = true →
      first_fit maxUnits (taken_layer s layer) (out r) ∧
      after r = mkTerrainResources (_globallyReservedUnits s)
                  (<[layer := units_of s layer ∪ {[ out r ]}]>
                     (_perLayerReservedUnits s)))) as Hlayer.
  { intros layer rq Hnn r. subst r.
    destruct (reserve_layer_inv maxUnits layer rq s Hnn)
      as [(i & Hscan & Hok & Hout & Hafter)|(Hscan & Hfail & _)].
    - split; [done|]. intros _.
      destruct (scan_first_fit _ _ _ Hmax Hscan) as [Hconv Hfit].
      rewrite Hout, Hafter, Hconv. done.
    - apply (scan_exhausted _ _ Hmax) in Hscan.
      split; [|by rewrite Hfail].
      intros j Hj0 Hjm Hfree. by destruct (Hfree (Hscan j Hj0 Hjm)). }
  split; [intros x; apply elem_of_taken_global|].
  split; [intros layer x; apply elem_of_taken_layer|].
  split; [done|]. split; [|split; [done|]].
  - intros this h rq r. subst r.
    destruct (reservation_follows_raw this maxUnits h rq s)
      as (-> & -> & -> & _).
    apply Hglobal.
  - intros this h layer rq Hnn r. subst r.
    destruct (forLayer_follows_raw this maxUnits h layer rq s Hnn)
      as (-> & -> & ->).
    by apply Hlayer.
Qed.

Lemma first_fit_policy_witness :
  let s := mkTerrainResources {[ 0 ]} {[ L1 := {[ 1 ]}; L2 := {[ 2 ]} ]} in
  ok (reserveTextureImageUnit 4 None s) = true ∧
  first_fit 4 (taken_global s) 3 ∧
  first_fit 4 (taken_layer s L2) 1 ∧
  _perLayerReservedUnits (after (reserveTextureImageUnit_layer 4 L2 None s))
  = {[ L1 := {[ 1 ]}; L2 := {[ 2; 1 ]} ]}.
Proof.
  intros s.
  assert (4 <= INT_MAX + 1) as Hmax by (unfold INT_MAX; lia).
  destruct (first_fit_policy 4 s Hmax) as (_ & _ & Hg & _ & Hl & _).
  destruct (Hg None) as [Hsucceeds Hgranted].
  destruct Hgranted as [Hfit _]; [reflexivity|].
  assert (L2 ≠ nullLayer) as Hnn by (unfold L2, nullLayer; lia).
  destruct (Hl L2 None Hnn) as [_ Hgranted'].
  destruct Hgranted' as [Hfit' Hafter]; [reflexivity|].
  split; [apply (Hsucceeds 3); [lia|lia|compute_done]|].
  split; [exact Hfit|]. split; [exact Hfit'|].
  rewrite Hafter. vm_compute. reflexivity.
Defined.

(** ** Exhaustion *)

Lemma reserve_fails_only_exhausted
    (maxUnits : Z) (rq : option string) (s : TerrainResources) :
  maxUnits <= INT_MAX + 1 →
  let r := reserveTextureImageUnit maxUnits rq s in
  fails_only_exhausted maxUnits (taken_global s) (ok r) (out r).
Proof.
  intros Hmax r. subst r. unfold fails_only_exhausted.
  rewrite <- (scan_exhausted _ _ Hmax).
  destruct (reserve_inv maxUnits rq s)
    as [(i & Hscan & Hok & Hout & _)|(Hscan & Hok & Hout & _)];
    rewrite Hok, Hout, Hscan.
  - destruct (scan_first_fit _ _ _ Hmax Hscan) as [-> (Hrange & _)].
    split; [done|]. split; [done|]. intros _. exact Hrange.
  - done.
Qed.

Lemma reserve_layer_fails_only_exhausted
    (maxUnits : Z) (layer : N) (rq : option string) (s : TerrainResources) :
  maxUnits <= INT_MAX + 1 → layer ≠ nullLayer →
  let r := reserveTextureImageUnit_layer maxUnits layer rq s in
  fails_only_exhausted maxUnits (taken_layer s layer) (ok r) (out r).
Proof.
  intros Hmax Hnn r. subst r. unfold fails_only_exhausted.
  rewrite <- (scan_exhausted _ _ Hmax).
  destruct (reserve_layer_inv maxUnits layer rq s Hnn)
    as [(i & Hscan & Hok & Hout & _)|(Hscan & Hok & Hout & _)];
    rewrite Hok, Hout, Hscan.
  - destruct (scan_first_fit _ _ _ Hmax Hscan) as [-> (Hrange & _)].
    split; [done|]. split; [done|]. intros _. exact Hrange.
  - done.
Qed.

(** C5, as the code has it.  For every [maxUnits] up to [INT_MAX + 1], the
    indices an [int] unit number can hold: a reserve call fails, returning
    [false] with [-1] left in the out parameter (in [_unit] for the
    reservation forms), if and only if every index of [[0, maxUnits)] is in
    the taken set of its scope, and every successful reserve returns a unit
    [u] with [0 <= u < maxUnits].  The scope of the raw layer-bound form
    called with a null layer is the global one. *)
Theorem reserve_fails_iff_exhausted (maxUnits : Z) (s : TerrainResources) :
  maxUnits <= INT_MAX + 1 →
  (∀ rq, let r := reserveTextureImageUnit maxUnits rq s in
     fails_only_exhausted maxUnits (taken_global s) (ok r) (out r)) ∧
  (∀ layer rq, layer ≠ nullLayer →
     let r := reserveTextureImageUnit_layer maxUnits layer rq s in
     fails_only_exhausted maxUnits (taken_layer s layer) (ok r) (out r)) ∧
  (∀ rq, let r := reserveTextureImageUnit_layer maxUnits nullLayer rq s in
     fails_only_exhausted maxUnits (taken_global s) (ok r) (out r)) ∧
  (∀ this h rq,
     let r := reserveTextureImageUnit_reservation this maxUnits h rq s in
     fails_only_exhausted maxUnits (taken_global s) (ok r) (_unit (out r))) ∧
  (∀ this h layer rq, layer ≠ nullLayer →
     let r := reserveTextureImageUnitForLayer this maxUnits h layer rq s in
     fails_only_exhausted maxUnits (taken_layer s layer) (ok r)
                          (_unit (out r))).
Proof.
  intros Hmax.
  split; [intros rq; by apply reserve_fails_only_exhausted|].
  split; [intros layer rq Hnn; by apply reserve_layer_fails_only_exhausted|].
  split; [intros rq; by apply reserve_fails_only_exhausted|].
  split.
  - intros this h rq r. subst r.
    destruct (reservation_follows_raw this maxUnits h rq s)
      as (-> & -> & _). by apply reserve_fails_only_exhausted.
  - intros this h layer rq Hnn r. subst r.
    destruct (forLayer_follows_raw this maxUnits h layer rq s Hnn)
      as (-> & -> & _). by apply reserve_layer_fails_only_exhausted.
Qed.

Lemma reserve_fails_iff_exhausted_witness :
  let s := mkTerrainResources {[ 0; 1 ]} {[ L1 := {[ 2; 3 ]} ]} in
  exhausted 4 (taken_global s) ∧
  out (reserveTextureImageUnit 4 None s) = -1 ∧
  ¬ exhausted 4 (taken_layer s L2).
Proof.
  intros s.
  assert (4 <= INT_MAX + 1) as Hmax by (unfold INT_MAX; lia).
  assert (L2 ≠ nullLayer) as Hnn by (unfold L2, nullLayer; lia).
  destruct (reserve_fails_iff_exhausted 4 s Hmax) as (Hg & Hl & _).
  destruct (Hg None) as (Hiff & Hout & _).
  destruct (Hl L2 None Hnn) as (Hiff' & _).
  split; [apply Hiff; reflexivity|].
  split; [apply Hout; reflexivity|].
  intros Hex. apply Hiff' in Hex. vm_compute in Hex. discriminate Hex.
Defined.

(** ** The unit of a successful reserve was not in use *)

Lemma reserve_granted_unused
    (maxUnits : Z) (rq : option string) (s : TerrainResources) :
  let r := reserveTextureImageUnit maxUnits rq s in
  ok r = true →
  (out r ∉ taken_global s) ∧
  after r = mkTerrainResources (_globallyReservedUnits s ∪ {[ out r ]})
                               (_perLayerReservedUnits s).
Proof.
  intros r Hok. subst r.
  destruct (reserve_inv maxUnits rq s)
    as [(i & Hscan & _ & Hout & Hafter)|(_ & Hfail & _)];
    [|by rewrite Hfail in Hok].
  apply first_unused_Some in Hscan as (_ & Hfree & _).
  by rewrite Hout, Hafter.
Qed.

Lemma reserve_layer_granted_unused
    (maxUnits : Z) (layer : N) (rq : option string) (s : TerrainResources) :
  layer ≠ nullLayer →
  let r := reserveTextureImageUnit_layer maxUnits layer rq s in
  ok r = true →
  (out r ∉ taken_layer s layer) ∧
  after r = mkTerrainResources (_globallyReservedUnits s)
              (<[layer := units_of s layer ∪ {[ out r ]}]>
                 (_perLayerReservedUnits s)).
Proof.
  intros Hnn r Hok. subst r.
  destruct (reserve_layer_inv maxUnits layer rq s Hnn)
    as [(i & Hscan & _ & Hout & Hafter)|(_ & Hfail & _)];
    [|by rewrite Hfail in Hok].
  apply first_unused_Some in Hscan as (_ & Hfree & _).
  by rewrite Hout, Hafter.
Qed.

Lemma reserve_layer_null
    (maxUnits : Z) (rq : option string) (s : TerrainResources) :
  reserveTextureImageUnit_layer maxUnits nullLayer rq s
  = reserveTextureImageUnit maxUnits rq s.
Proof. unfold reserveTextureImageUnit_layer. by rewrite decide_True. Qed.

Lemma forLayer_null
    (this : N) (maxUnits : Z) (h : TextureImageUnitReservation)
    (rq : option string) (s : TerrainResources) :
  reserveTextureImageUnitForLayer this maxUnits h nullLayer rq s
  = mkReserved false h s [WarnIllegalUsage].
Proof. unfold reserveTextureImageUnitForLayer. by rewrite decide_True. Qed.

(** Whatever the form, a granted unit was outside [_globallyReservedUnits]. *)
Lemma granted_not_global (c : Call) (s : TerrainResources) (u : Z) :
  granted c s = Some u → u ∉ _globallyReservedUnits s.
Proof.
  assert (∀ m rq, ok (reserveTextureImageUnit m rq s) = true →
                  out (reserveTextureImageUnit m rq s)
                  ∉ _globallyReservedUnits s) as Hglobal.
  { intros m rq Hok. destruct (reserve_granted_unused m rq s Hok) as [Hfree _].
    rewrite elem_of_taken_global in Hfree. tauto. }
  assert (∀ m l rq, ok (reserveTextureImageUnit_layer m l rq s) = true →
                    out (reserveTextureImageUnit_layer m l rq s)
                    ∉ _globallyReservedUnits s) as Hlayer.
  { intros m l rq Hok. destruct (decide (l = nullLayer)) as [->|Hnn].
    - rewrite reserve_layer_null in *. by apply Hglobal.
    - destruct (reserve_layer_granted_unused m l rq s Hnn Hok) as [Hfree _].
      rewrite elem_of_taken_layer in Hfree. tauto. }
  destruct c as [m rq|m l rq|this m h rq|this m h l rq| | |]; simpl; try done.
  - destruct (ok _) eqn:Hok; [|done]. intros [= <-]. by apply Hglobal.
  - destruct (ok _) eqn:Hok; [|done]. intros [= <-]. by apply Hlayer.
  - destruct (reservation_follows_raw this m h rq s) as (-> & -> & _).
    destruct (ok _) eqn:Hok; [|done]. intros [= <-]. by apply Hglobal.
  - destruct (decide (l = nullLayer)) as [->|Hnn].
    + by rewrite forLayer_null.
    + destruct (forLayer_follows_raw this m h l rq s Hnn) as (-> & -> & _).
      destruct (ok _) eqn:Hok; [|done]. intros [= <-]. by apply Hlayer.
Qed.

(** ** What a call does to each container *)

Lemma release_layer_global (u : Z) (layer : N) (s : TerrainResources) :
  _globallyReservedUnits (releaseTextureImageUnit_layer u layer s)
  = if decide (layer = nullLayer) then _globallyReservedUnits s ∖ {[ u ]}
    else _globallyReservedUnits s.
Proof.
  unfold releaseTextureImageUnit_layer.
  destruct (decide (layer = nullLayer)); simpl;
    destruct (_perLayerReservedUnits s !! layer); try done;
    by destruct (decide _).
Qed.

(** The layer-bound release only rewrites the entry of its layer: that
    entry loses [u], and goes altogether when nothing is left in it. *)
Lemma release_layer_lookup (u : Z) (layer l : N) (s : TerrainResources) :
  _perLayerReservedUnits (releaseTextureImageUnit_layer u layer s) !! l
  = if decide (l = layer) then
      match _perLayerReservedUnits s !! layer with
      | Some units =>
          if decide (units ∖ {[ u ]} = ∅) then None
          else Some (units ∖ {[ u ]})
      | None => None
      end
    else _perLayerReservedUnits s !! l.
Proof.
  unfold releaseTextureImageUnit_layer.
  set (s1 := if decide (layer = nullLayer) then releaseTextureImageUnit u s
             else s).
  assert (_perLayerReservedUnits s1 = _perLayerReservedUnits s) as HP
    by (subst s1; by destruct (decide (layer = nullLayer))).
  clearbody s1. rewrite HP.
  destruct (_perLayerReservedUnits s !! layer) as [units|] eqn:Hl.
  - destruct (decide (units ∖ {[ u ]} = ∅)); simpl.
    + rewrite lookup_delete.
      by destruct (decide (layer = l)), (decide (l = layer)).
    + rewrite lookup_insert.
      by destruct (decide (layer = l)), (decide (l = layer)).
  - rewrite ?HP. by destruct (decide (l = layer)) as [->|].
Qed.

Lemma set_off_limits_true (u : Z) (s : TerrainResources) :
  (setTextureImageUnitOffLimits u s).1 = true ↔ free_everywhere u s.
Proof.
  unfold setTextureImageUnitOffLimits, free_everywhere.
  destruct (decide (u ∈ _globallyReservedUnits s)) as [Hin|Hout]; simpl.
  - split; [done|]. by intros [? _].
  - destruct (in_use_by_a_layer _ _) eqn:Hscan; simpl.
    + apply in_use_by_a_layer_map in Hscan as (l & units & Hl & Hu).
      split; [done|]. intros [_ Hfree]. by destruct (Hfree l units Hl).
    + split; [|done]. intros _. split; [done|]. intros l units Hl Hu.
      assert (in_use_by_a_layer u (map_to_list (_perLayerReservedUnits s))
              = true) as Habs
        by (apply in_use_by_a_layer_map; by exists l, units).
      by rewrite Hscan in Habs.
Qed.

Lemma set_off_limits_after (u : Z) (s : TerrainResources) :
  (setTextureImageUnitOffLimits u s).2
  = if (setTextureImageUnitOffLimits u s).1
    then mkTerrainResources (_globallyReservedUnits s ∪ {[ u ]})
                            (_perLayerReservedUnits s)
    else s.
Proof.
  unfold setTextureImageUnitOffLimits.
  destruct (decide _); [done|]. by destruct (in_use_by_a_layer _ _).
Qed.

(** A unit stays in [_globallyReservedUnits] through every call but its
    own global release. *)
Lemma step_keeps_global (c : Call) (s : TerrainResources) (u : Z) :
  ¬ releases_globally u c →
  u ∈ _globallyReservedUnits s → u ∈ _globallyReservedUnits (step c s).
Proof.
  intros Hc Hu.
  assert (∀ m rq, u ∈ _globallyReservedUnits
                        (after (reserveTextureImageUnit m rq s))) as Hglobal.
  { intros m rq.
    destruct (reserve_inv m rq s) as [(i & _ & _ & _ & ->)|(_ & _ & _ & ->)];
      simpl; set_solver. }
  assert (∀ m l rq, u ∈ _globallyReservedUnits
                          (after (reserveTextureImageUnit_layer m l rq s)))
    as Hlayer.
  { intros m l rq. destruct (decide (l = nullLayer)) as [->|Hnn].
    - by rewrite reserve_layer_null.
    - by destruct (reserve_layer_inv m l rq s Hnn)
        as [(i & _ & _ & _ & ->)|(_ & _ & _ & ->)]. }
  destruct c as [m rq|m l rq|this m h rq|this m h l rq|v|v l|v]; simpl.
  - done.
  - done.
  - by destruct (reservation_follows_raw this m h rq s) as (_ & _ & -> & _).
  - destruct (decide (l = nullLayer)) as [->|Hnn].
    + by rewrite forLayer_null.
    + by destruct (forLayer_follows_raw this m h l rq s Hnn) as (_ & _ & ->).
  - assert (v ≠ u) by (intros ->; apply Hc; by left). set_solver.
  - rewrite release_layer_global. destruct (decide (l = nullLayer)) as [->|]; [|done].
    assert (v ≠ u) by (intros ->; apply Hc; by right). set_solver.
  - rewrite set_off_limits_after.
    destruct (setTextureImageUnitOffLimits v s).1; simpl; set_solver.
Qed.

(** A layer keeps its entry through every call but a release for it. *)
Lemma step_keeps_entry (c : Call) (s : TerrainResources) (layer : N) :
  ¬ releases_for_layer layer c →
  is_Some (_perLayerReservedUnits s !! layer) →
  is_Some (_perLayerReservedUnits (step c s) !! layer).
Proof.
  intros Hc Hl.
  assert (∀ m rq, _perLayerReservedUnits
                    (after (reserveTextureImageUnit m rq s))
                  = _perLayerReservedUnits s) as Hglobal.
  { intros m rq.
    by destruct (reserve_inv m rq s) as [(i & _ & _ & _ & ->)|(_ & _ & _ & ->)]. }
  assert (∀ m l rq, is_Some (_perLayerReservedUnits
              (after (reserveTextureImageUnit_layer m l rq s)) !! layer))
    as Hlayer.
  { intros m l rq. destruct (decide (l = nullLayer)) as [->|Hnn].
    - by rewrite reserve_layer_null, Hglobal.
    - destruct (reserve_layer_inv m l rq s Hnn)
        as [(i & _ & _ & _ & ->)|(_ & _ & _ & ->)]; simpl;
        (destruct (decide (l = layer)) as [->|];
         [by rewrite lookup_insert_eq|by rewrite lookup_insert_ne]). }
  destruct c as [m rq|m l rq|this m h rq|this m h l rq|v|v l|v]; simpl.
  - by rewrite Hglobal.
  - done.
  - destruct (reservation_follows_raw this m h rq s) as (_ & _ & -> & _).
    by rewrite Hglobal.
  - destruct (decide (l = nullLayer)) as [->|Hnn].
    + by rewrite forLayer_null.
    + by destruct (forLayer_follows_raw this m h l rq s Hnn) as (_ & _ & ->).
  - done.
  - rewrite release_layer_lookup. destruct (decide (layer = l)) as [->|]; [|done].
    exfalso. apply Hc. by exists v.
  - rewrite set_off_limits_after.
    by destruct (setTextureImageUnitOffLimits v s).1.
Qed.

(** ** Consistency is kept by every call *)

Lemma reserve_consistent
    (maxUnits : Z) (rq : option string) (s : TerrainResources) :
  consistent s → consistent (after (reserveTextureImageUnit maxUnits rq s)).
Proof.
  intros [Hnull Hdisj].
  destruct (reserve_inv maxUnits rq s)
    as [(i & Hscan & _ & _ & ->)|(_ & _ & _ & ->)]; [|done].
  apply first_unused_Some in Hscan as (_ & Hfree & _).
  rewrite elem_of_taken_global in Hfree.
  split; [done|]. simpl. intros l units Hl.
  specialize (Hdisj l units Hl).
  assert (to_int i ∉ units) by (intros Hin; apply Hfree; right; eauto).
  set_solver.
Qed.

Lemma reserve_layer_consistent
    (maxUnits : Z) (layer : N) (rq : option string) (s : TerrainResources) :
  consistent s →
  consistent (after (reserveTextureImageUnit_layer maxUnits layer rq s)).
Proof.
  intros Hs. destruct (decide (layer = nullLayer)) as [->|Hnn].
  { rewrite reserve_layer_null. by apply reserve_consistent. }
  destruct Hs as [Hnull Hdisj].
  assert (_globallyReservedUnits s ## units_of s layer) as Hown.
  { unfold units_of.
    destruct (_perLayerReservedUnits s !! layer) as [units|] eqn:Hl; simpl;
      [by eapply Hdisj|set_solver]. }
  destruct (reserve_layer_inv maxUnits layer rq s Hnn)
    as [(i & Hscan & _ & _ & ->)|(_ & _ & _ & ->)]; simpl.
  - apply first_unused_Some in Hscan as (_ & Hfree & _).
    unfold taken_layer in Hfree. fold (units_of s layer) in Hfree.
    split; [simpl; by rewrite lookup_insert_ne|]. simpl. intros l units.
    destruct (decide (layer = l)) as [<-|Hne].
    + rewrite lookup_insert_eq. intros [= <-]. set_solver.
    + rewrite lookup_insert_ne by done. apply Hdisj.
  - split; [simpl; by rewrite lookup_insert_ne|]. simpl. intros l units.
    destruct (decide (layer = l)) as [<-|Hne].
    + rewrite lookup_insert_eq. by intros [= <-].
    + rewrite lookup_insert_ne by done. apply Hdisj.
Qed.

Lemma release_layer_consistent (u : Z) (layer : N) (s : TerrainResources) :
  consistent s → consistent (releaseTextureImageUnit_layer u layer s).
Proof.
  intros [Hnull Hdisj]. split.
  - rewrite release_layer_lookup.
    destruct (decide (nullLayer = layer)) as [<-|]; [by rewrite Hnull|done].
  - intros l units. rewrite release_layer_lookup, release_layer_global.
    assert (∀ units', _perLayerReservedUnits s !! l = Some units' →
                      units ⊆ units' →
              (if decide (layer = nullLayer)
               then _globallyReservedUnits s ∖ {[ u ]}
               else _globallyReservedUnits s) ## units) as Hsub.
    { intros units' Hl Hincl. specialize (Hdisj l units' Hl).
      destruct (decide (layer = nullLayer)); set_solver. }
    destruct (decide (l = layer)) as [->|Hne].
    + destruct (_perLayerReservedUnits s !! layer) as [units'|] eqn:Hl;
        [|done].
      destruct (decide (units' ∖ {[ u ]} = ∅)); [done|].
      intros [= <-]. apply (Hsub units'); [done|set_solver].
    + intros Hl. by apply (Hsub units).
Qed.

Lemma step_consistent (c : Call) (s : TerrainResources) :
  consistent s → consistent (step c s).
Proof.
  intros Hs.
  destruct c as [m rq|m l rq|this m h rq|this m h l rq|v|v l|v]; simpl.
  - by apply reserve_consistent.
  - by apply reserve_layer_consistent.
  - destruct (reservation_follows_raw this m h rq s) as (_ & _ & -> & _).
    by apply reserve_consistent.
  - destruct (decide (l = nullLayer)) as [->|Hnn].
    + by rewrite forLayer_null.
    + destruct (forLayer_follows_raw this m h l rq s Hnn) as (_ & _ & ->).
      by apply reserve_layer_consistent.
  - destruct Hs as [Hnull Hdisj]. split; [done|]. simpl.
    intros l units Hl. specialize (Hdisj l units Hl). set_solver.
  - by apply release_layer_consistent.
  - rewrite set_off_limits_after.
    destruct (setTextureImageUnitOffLimits v s).1 eqn:Hok; [|done].
    apply set_off_limits_true in Hok as [Hg Hp].
    destruct Hs as [Hnull Hdisj]. split; [done|]. simpl.
    intros l units Hl. specialize (Hdisj l units Hl).
    specialize (Hp l units Hl). set_solver.
Qed.

Lemma new_consistent : consistent newTerrainResources.
Proof. split; [done|]. simpl. intros l units Hl. by rewrite lookup_empty in Hl. Qed.

Lemma reachable_consistent (s : TerrainResources) :
  reachable s → consistent s.
Proof.
  induction 1 as [|c s _ IH]; [apply new_consistent|by apply step_consistent].
Qed.

Lemma reachable_run (cs : list Call) (s : TerrainResources) :
  reachable s → reachable (run cs s).
Proof.
  revert s. induction cs as [|c cs IH]; intros s Hs; [done|].
  apply IH. by constructor.
Qed.

Lemma run_keeps_global (cs : list Call) (s : TerrainResources) (u : Z) :
  Forall (λ c, ¬ releases_globally u c) cs →
  u ∈ _globallyReservedUnits s → u ∈ _globallyReservedUnits (run cs s).
Proof.
  intros Hcs. revert s.
  induction Hcs as [|c cs Hc _ IH]; intros s Hu; [done|].
  apply IH. by apply step_keeps_global.
Qed.

Lemma run_keeps_entry (cs : list Call) (s : TerrainResources) (layer : N) :
  Forall (λ c, ¬ releases_for_layer layer c) cs →
  is_Some (_perLayerReservedUnits s !! layer) →
  is_Some (_perLayerReservedUnits (run cs s) !! layer).
Proof.
  intros Hcs. revert s.
  induction Hcs as [|c cs Hc _ IH]; intros s Hl; [done|].
  apply IH. by apply step_keeps_entry.
Qed.

Lemma TerrainResources_eq (a b : TerrainResources) :
  _globallyReservedUnits a = _globallyReservedUnits b →
  _perLayerReservedUnits a = _perLayerReservedUnits b → a = b.
Proof. destruct a, b; simpl; congruence. Qed.

Lemma scan_starts_free (maxUnits : Z) (taken : gset Z) :
  1 <= maxUnits → 0 ∉ taken →
  first_unused taken 0 (Z.to_nat maxUnits) = Some 0.
Proof.
  intros Hm Hfree. destruct (to_nat_succ maxUnits Hm) as [n ->]. simpl.
  rewrite (to_int_small 0) by (unfold INT_MAX; lia).
  by rewrite decide_False.
Qed.

(** ** Global and layer-bound reservations *)

(** C2. A successful layer-bound reservation and a successful global
    reservation that is still outstanding never hold the same unit: a global
    reserve grants no unit found in the set of any layer (nor in
    [_globallyReservedUnits]), a layer-bound reserve grants no unit found in
    [_globallyReservedUnits], and so, in every state an allocator can be in,
    [_globallyReservedUnits] shares no unit with the set of any layer. *)
Theorem global_and_layer_units_distinct (s : TerrainResources) :
  (∀ m rq, let r := reserveTextureImageUnit m rq s in
     ok r = true →
     (out r ∉ _globallyReservedUnits s) ∧
     (∀ l units, _perLayerReservedUnits s !! l = Some units →
                 out r ∉ units)) ∧
  (∀ this m h rq,
     let r := reserveTextureImageUnit_reservation this m h rq s in
     ok r = true →
     (_unit (out r) ∉ _globallyReservedUnits s) ∧
     (∀ l units, _perLayerReservedUnits s !! l = Some units →
                 _unit (out r) ∉ units)) ∧
  (∀ m layer rq, layer ≠ nullLayer →
     let r := reserveTextureImageUnit_layer m layer rq s in
     ok r = true → out r ∉ _globallyReservedUnits s) ∧
  (∀ this m h layer rq, layer ≠ nullLayer →
     let r := reserveTextureImageUnitForLayer this m h layer rq s in
     ok r = true → _unit (out r) ∉ _globallyReservedUnits s) ∧
  (reachable s →
   ∀ l units, _perLayerReservedUnits s !! l = Some units →
              _globallyReservedUnits s ## units).
Proof.
  assert (∀ m rq, let r := reserveTextureImageUnit m rq s in
     ok r = true →
     (out r ∉ _globallyReservedUnits s) ∧
     (∀ l units, _perLayerReservedUnits s !! l = Some units →
                 out r ∉ units)) as Hglobal.
  { intros m rq r Hok. subst r.
    destruct (reserve_granted_unused m rq s Hok) as [Hfree _].
    rewrite elem_of_taken_global in Hfree.
    split; [tauto|]. intros l units Hl Hin. apply Hfree. right. eauto. }
  assert (∀ m layer rq, layer ≠ nullLayer →
     let r := reserveTextureImageUnit_layer m layer rq s in
     ok r = true → out r ∉ _globallyReservedUnits s) as Hlayer.
  { intros m layer rq Hnn r Hok. subst r.
    destruct (reserve_layer_granted_unused m layer rq s Hnn Hok) as [Hfree _].
    rewrite elem_of_taken_layer in Hfree. tauto. }
  split; [done|]. split; [|split; [done|split]].
  - intros this m h rq r Hok. subst r.
    destruct (reservation_follows_raw this m h rq s) as (Hok' & -> & _).
    apply Hglobal. by rewrite <- Hok'.
  - intros this m h layer rq Hnn r Hok. subst r.
    destruct (forLayer_follows_raw this m h layer rq s Hnn) as (Hok' & -> & _).
    apply Hlayer; [done|]. by rewrite <- Hok'.
  - intros Hs. by destruct (reachable_consistent s Hs).
Qed.

Lemma global_and_layer_units_distinct_witness :
  let s := run [ReserveLayer 4 L1 None; Reserve 4 None; ReserveLayer 4 L2 None]
               newTerrainResources in
  (out (reserveTextureImageUnit 4 None s) ∉ ({[ 0 ]} : gset Z)) ∧
  (out (reserveTextureImageUnit_layer 4 L1 None s)
   ∉ _globallyReservedUnits s) ∧
  _globallyReservedUnits s ## ({[ 0 ]} : gset Z).
Proof.
  intros s.
  assert (L1 ≠ nullLayer) as Hnn by (unfold L1, nullLayer; lia).
  assert (reachable s) as Hs by (apply reachable_run; constructor).
  destruct (global_and_layer_units_distinct s) as (Hg & _ & Hl & _ & Hd).
  destruct (Hg 4 None) as [_ Hg']; [reflexivity|].
  split; [apply (Hg' L2); reflexivity|].
  split; [apply (Hl 4 L1 None Hnn); reflexivity|].
  apply (Hd Hs L1). reflexivity.
Defined.

(** C3. Layer-bound reserves for distinct layers do not block each other.
    A layer-bound reserve consults only [_globallyReservedUnits] and the set
    of the requesting layer: two allocators that agree on those give the same
    answer.  So on a new allocator with [maxUnits >= 1], a reserve for [l1]
    followed by a reserve for another layer [l2] both return unit 0, with the
    raw form and with the reservation form alike. *)
Theorem distinct_layers_share_units (maxUnits : Z) (l1 l2 : N) :
  l1 ≠ nullLayer → l2 ≠ nullLayer → l1 ≠ l2 → 1 <= maxUnits →
  (∀ rq s s',
     _globallyReservedUnits s = _globallyReservedUnits s' →
     _perLayerReservedUnits s !! l1 = _perLayerReservedUnits s' !! l1 →
     ok (reserveTextureImageUnit_layer maxUnits l1 rq s)
     = ok (reserveTextureImageUnit_layer maxUnits l1 rq s') ∧
     out (reserveTextureImageUnit_layer maxUnits l1 rq s)
     = out (reserveTextureImageUnit_layer maxUnits l1 rq s')) ∧
  (∀ rq1 rq2,
     let r1 := reserveTextureImageUnit_layer maxUnits l1 rq1
                 newTerrainResources in
     let r2 := reserveTextureImageUnit_layer maxUnits l2 rq2 (after r1) in
     (ok r1 = true ∧ out r1 = 0) ∧ (ok r2 = true ∧ out r2 = 0)) ∧
  (∀ this h1 h2 rq1 rq2,
     let r1 := reserveTextureImageUnitForLayer this maxUnits h1 l1 rq1
                 newTerrainResources in
     let r2 := reserveTextureImageUnitForLayer this maxUnits h2 l2 rq2
                 (after r1) in
     (ok r1 = true ∧ _unit (out r1) = 0) ∧
     (ok r2 = true ∧ _unit (out r2) = 0)).
Proof.
  intros Hnn1 Hnn2 Hne Hm.
  assert (∀ l s rq, l ≠ nullLayer → 0 ∉ taken_layer s l →
            let r := reserveTextureImageUnit_layer maxUnits l rq s in
            ok r = true ∧ out r = 0 ∧
            after r = mkTerrainResources (_globallyReservedUnits s)
                        (<[l := units_of s l ∪ {[ 0 ]}]>
                           (_perLayerReservedUnits s))) as Hzero.
  { intros l s rq Hnn Hfree r. subst r.
    pose proof (scan_starts_free maxUnits _ Hm Hfree) as Hscan.
    destruct (reserve_layer_inv maxUnits l rq s Hnn)
      as [(i & Hscan' & -> & -> & ->)|(Hscan' & _)];
      rewrite Hscan in Hscan'; [|done].
    injection Hscan' as <-.
    by rewrite (to_int_small 0) by (unfold INT_MAX; lia). }
  assert (∀ rq1 rq2,
     let r1 := reserveTextureImageUnit_layer maxUnits l1 rq1
                 newTerrainResources in
     let r2 := reserveTextureImageUnit_layer maxUnits l2 rq2 (after r1) in
     (ok r1 = true ∧ out r1 = 0) ∧ (ok r2 = true ∧ out r2 = 0)) as Hraw.
  { intros rq1 rq2 r1 r2. subst r1 r2.
    destruct (Hzero l1 newTerrainResources rq1 Hnn1) as (Hok1 & Hout1 & ->).
    { unfold taken_layer. simpl. rewrite lookup_empty. set_solver. }
    split; [done|].
    edestruct (Hzero l2) as (Hok2 & Hout2 & _); [done| |by eauto].
    unfold taken_layer. simpl. rewrite lookup_insert_ne by done.
    rewrite lookup_empty. set_solver. }
  split; [|split; [done|]].
  - intros rq s s' HG HP. unfold reserveTextureImageUnit_layer.
    rewrite !decide_False by done. rewrite HG, HP.
    by destruct (first_unused _ _ _).
  - intros this h1 h2 rq1 rq2 r1 r2. subst r1 r2.
    destruct (forLayer_follows_raw this maxUnits h1 l1 rq1
                newTerrainResources Hnn1) as (-> & -> & ->).
    destruct (forLayer_follows_raw this maxUnits h2 l2 rq2
      (after (reserveTextureImageUnit_layer maxUnits l1 rq1
                newTerrainResources)) Hnn2) as (-> & -> & _).
    apply Hraw.
Qed.

Lemma distinct_layers_share_units_witness :
  out (reserveTextureImageUnit_layer 4 L1 None newTerrainResources) = 0 ∧
  out (reserveTextureImageUnit_layer 4 L2 None
         (after (reserveTextureImageUnit_layer 4 L1 None newTerrainResources)))
  = 0.
Proof.
  assert (L1 ≠ nullLayer) as Hnn1 by (unfold L1, nullLayer; lia).
  assert (L2 ≠ nullLayer) as Hnn2 by (unfold L2, nullLayer; lia).
  assert (L1 ≠ L2) as Hne by (unfold L1, L2; lia).
  assert (1 <= 4) as Hm by lia.
  destruct (distinct_layers_share_units 4 L1 L2 Hnn1 Hnn2 Hne Hm)
    as (_ & Hraw & _).
  destruct (Hraw None None) as [[_ H1] [_ H2]].
  split; [exact H1|exact H2].
Defined.

(** ** Off-limits units *)

(** C4. [setTextureImageUnitOffLimits(u)] returns [true] if and only if [u]
    is in neither [_globallyReservedUnits] nor the set of any layer; on
    [true] it inserts [u] into [_globallyReservedUnits], on [false] it leaves
    both containers as they were; and after a successful call no reserve,
    of whatever form and after whatever calls, returns [u] as long as [u]
    has not been released globally. *)
Theorem off_limits_contract (u : Z) (s : TerrainResources) :
  let r := setTextureImageUnitOffLimits u s in
  (r.1 = true ↔ free_everywhere u s) ∧
  (r.1 = true →
   r.2 = mkTerrainResources (_globallyReservedUnits s ∪ {[ u ]})
                            (_perLayerReservedUnits s)) ∧
  (r.1 = false → r.2 = s) ∧
  (r.1 = true →
   ∀ cs, Forall (λ c, ¬ releases_globally u c) cs →
         ∀ c, granted c (run cs r.2) ≠ Some u).
Proof.
  intros r. subst r.
  split; [apply set_off_limits_true|].
  split; [intros Hok; by rewrite set_off_limits_after, Hok|].
  split; [intros Hok; by rewrite set_off_limits_after, Hok|].
  intros Hok cs Hcs c Hgrant.
  apply granted_not_global in Hgrant. apply Hgrant.
  apply run_keeps_global; [done|].
  rewrite set_off_limits_after, Hok. simpl. set_solver.
Qed.

Lemma off_limits_contract_witness :
  let r := setTextureImageUnitOffLimits 2 newTerrainResources in
  free_everywhere 2 newTerrainResources ∧
  r.2 = mkTerrainResources (∅ ∪ {[ 2 ]}) ∅ ∧
  granted (Reserve 4 None)
          (run [Reserve 4 None; Release 0; ReserveLayer 4 L1 None] r.2)
  ≠ Some 2.
Proof.
  intros r.
  destruct (off_limits_contract 2 newTerrainResources)
    as (Hiff & Hins & _ & Hkeep).
  split; [apply Hiff; reflexivity|].
  split; [apply Hins; reflexivity|].
  apply Hkeep; [reflexivity|].
  repeat constructor; intros [H|H]; discriminate H.
Defined.

(** C10. [setTextureImageUnitOffLimits] checks no range: for every integer
    [u], negative ones and ones beyond any [maxUnits] included, if [u] is in
    neither [_globallyReservedUnits] nor the set of any layer, the call
    returns [true] and inserts [u] into [_globallyReservedUnits].  The bound
    [[0, maxUnits)] holds of the units a reserve returns, not of the units
    this call accepts. *)
Theorem off_limits_has_no_range_check (u : Z) (s : TerrainResources) :
  free_everywhere u s →
  setTextureImageUnitOffLimits u s
  = (true, mkTerrainResources (_globallyReservedUnits s ∪ {[ u ]})
                              (_perLayerReservedUnits s)).
Proof.
  intros Hfree. apply set_off_limits_true in Hfree.
  rewrite (surjective_pairing (setTextureImageUnitOffLimits u s)).
  by rewrite set_off_limits_after, Hfree.
Qed.

Lemma off_limits_has_no_range_check_witness :
  let s := after (reserveTextureImageUnit 4 None newTerrainResources) in
  setTextureImageUnitOffLimits (-7) s
  = (true, mkTerrainResources (_globallyReservedUnits s ∪ {[ -7 ]})
                              (_perLayerReservedUnits s)) ∧
  setTextureImageUnitOffLimits 4 s
  = (true, mkTerrainResources (_globallyReservedUnits s ∪ {[ 4 ]})
                              (_perLayerReservedUnits s)).
Proof.
  intros s.
  assert (∀ u, u ≠ 0 → free_everywhere u s) as Hfree.
  { intros u Hu. split.
    - intros Hin. apply elem_of_union in Hin as [Hin|Hin].
      + by apply not_elem_of_empty in Hin.
      + apply elem_of_singleton in Hin. by apply Hu.
    - intros l units Hl. discriminate Hl. }
  split; apply off_limits_has_no_range_check; apply Hfree; lia.
Defined.

(** ** Releases *)

(** C6. For every state an allocator can be in and every unit, the
    layer-bound release called with a null layer ends in exactly the state
    the global release of that unit ends in: the unit is gone from
    [_globallyReservedUnits] and [_perLayerReservedUnits] is as before. *)
Theorem release_null_layer_is_global_release (u : Z) (s : TerrainResources) :
  reachable s →
  releaseTextureImageUnit_layer u nullLayer s = releaseTextureImageUnit u s ∧
  _globallyReservedUnits (releaseTextureImageUnit_layer u nullLayer s)
  = _globallyReservedUnits s ∖ {[ u ]} ∧
  _perLayerReservedUnits (releaseTextureImageUnit_layer u nullLayer s)
  = _perLayerReservedUnits s.
Proof.
  intros Hs. destruct (reachable_consistent s Hs) as [Hnull _].
  assert (releaseTextureImageUnit_layer u nullLayer s
          = releaseTextureImageUnit u s) as ->; [|done].
  unfold releaseTextureImageUnit_layer. rewrite decide_True by done.
  simpl. by rewrite Hnull.
Qed.

Lemma release_null_layer_is_global_release_witness :
  let s := run [Reserve 4 None; ReserveLayer 4 L1 None; Reserve 4 None]
               newTerrainResources in
  releaseTextureImageUnit_layer 0 nullLayer s = releaseTextureImageUnit 0 s.
Proof.
  intros s.
  assert (reachable s) as Hs by (apply reachable_run; constructor).
  exact (proj1 (release_null_layer_is_global_release 0 s Hs)).
Defined.

(** C7 as it is stated does not hold.  The layer-bound release of a unit
    its layer does not hold, on an allocator that maps the layer to an empty
    set, is not a no-op: the entry of the layer goes.  Such an allocator is
    what an exhausted layer-bound reserve leaves behind; here one unit
    exists, a global reserve takes it and the reserve for [L1] fails. *)
Lemma release_of_unreserved_unit_prunes_entry :
  let s := run [Reserve 1 None; ReserveLayer 1 L1 None] newTerrainResources in
  reachable s ∧ (3 ∉ units_of s L1) ∧
  releaseTextureImageUnit_layer 3 L1 s ≠ s.
Proof.
  intros s. split; [apply reachable_run; constructor|].
  split; [compute_done|].
  intros Heq.
  apply (f_equal (λ a, _perLayerReservedUnits a !! L1)) in Heq.
  vm_compute in Heq. discriminate Heq.
Qed.

(** C7, as the code has it.  Releasing a unit that is not reserved in its
    scope changes nothing, but for one case: the global release of [u] with
    [u] outside [_globallyReservedUnits] leaves the allocator as it was (and
    so does the layer-bound release with a null layer), and so does the
    release of [u] for a non-null layer whose set does not hold [u], unless
    the layer is mapped to the empty set; then the release removes that empty
    entry and nothing else.  Both releases are idempotent: applying one twice
    equals applying it once. *)
Theorem release_unreserved_and_idempotent
    (u : Z) (layer : N) (s : TerrainResources) :
  (u ∉ _globallyReservedUnits s → releaseTextureImageUnit u s = s) ∧
  (reachable s → u ∉ _globallyReservedUnits s →
   releaseTextureImageUnit_layer u nullLayer s = s) ∧
  (layer ≠ nullLayer → u ∉ units_of s layer →
   _perLayerReservedUnits s !! layer ≠ Some ∅ →
   releaseTextureImageUnit_layer u layer s = s) ∧
  (layer ≠ nullLayer → _perLayerReservedUnits s !! layer = Some ∅ →
   releaseTextureImageUnit_layer u layer s
   = mkTerrainResources (_globallyReservedUnits s)
                        (delete layer (_perLayerReservedUnits s))) ∧
  releaseTextureImageUnit u (releaseTextureImageUnit u s)
  = releaseTextureImageUnit u s ∧
  releaseTextureImageUnit_layer u layer (releaseTextureImageUnit_layer u layer s)
  = releaseTextureImageUnit_layer u layer s.
Proof.
  split; [|split; [|split; [|split; [|split]]]].
  - intros Hu. apply TerrainResources_eq; simpl; [set_solver|done].
  - intros Hs Hu. destruct (reachable_consistent s Hs) as [Hnull _].
    unfold releaseTextureImageUnit_layer. rewrite decide_True by done.
    simpl. rewrite Hnull.
    apply TerrainResources_eq; simpl; [set_solver|done].
  - intros Hnn Hu Hentry. unfold units_of in Hu.
    unfold releaseTextureImageUnit_layer. rewrite decide_False by done.
    destruct (_perLayerReservedUnits s !! layer) as [units|] eqn:Hl; [|done].
    simpl in Hu.
    assert (units ∖ {[ u ]} = units) as -> by set_solver.
    rewrite decide_False by congruence.
    apply TerrainResources_eq; simpl; [done|]. by apply insert_id.
  - intros Hnn Hl. unfold releaseTextureImageUnit_layer.
    rewrite decide_False by done. rewrite Hl.
    by rewrite decide_True by set_solver.
  - apply TerrainResources_eq; simpl; [set_solver|done].
  - apply TerrainResources_eq.
    + rewrite !release_layer_global.
      destruct (decide (layer = nullLayer)); [set_solver|done].
    + apply map_eq. intros l. rewrite !release_layer_lookup.
      destruct (decide (l = layer)) as [->|]; [|done].
      rewrite ?decide_True by done.
      destruct (_perLayerReservedUnits s !! layer) as [units|]; [|done].
      destruct (decide (units ∖ {[ u ]} = ∅)) as [|Hne]; [done|].
      assert (units ∖ {[ u ]} ∖ {[ u ]} = units ∖ {[ u ]}) as -> by set_solver.
      by rewrite decide_False.
Qed.

Lemma release_unreserved_and_idempotent_witness :
  let s := run [Reserve 4 None; ReserveLayer 4 L1 None] newTerrainResources in
  releaseTextureImageUnit 3 s = s ∧ releaseTextureImageUnit_layer 3 L1 s = s.
Proof.
  intros s.
  destruct (release_unreserved_and_idempotent 3 L1 s) as (Hg & _ & Hl & _).
  split.
  - apply Hg. compute_done.
  - apply Hl.
    + unfold L1, nullLayer. lia.
    + compute_done.
    + compute_done.
Defined.

(** ** The null layer *)

(** C8. The reservation form of the layer-bound reserve, called with a null
    layer, logs a warning and returns [false]; it reserves nothing, leaves
    the reservation it was given untouched and both containers as they were.
    The raw layer-bound reserve called with a null layer is the global
    reserve.  This is the only place where the raw forms and the reservation
    forms part: the global pair always agrees, and the layer-bound pair
    agrees for every non-null layer, on the result, the unit and the
    allocator afterwards; a successful reservation form records the unit, the
    layer and the allocator in the reservation. *)
Theorem null_layer_is_the_only_asymmetry
    (this : N) (maxUnits : Z) (h : TextureImageUnitReservation)
    (rq : option string) (s : TerrainResources) :
  (let r := reserveTextureImageUnitForLayer this maxUnits h nullLayer rq s in
   ok r = false ∧ out r = h ∧ after r = s ∧
   logged r = [WarnIllegalUsage]) ∧
  reserveTextureImageUnit_layer maxUnits nullLayer rq s
  = reserveTextureImageUnit maxUnits rq s ∧
  (let r := reserveTextureImageUnit_reservation this maxUnits h rq s in
   let r' := reserveTextureImageUnit maxUnits rq s in
   ok r = ok r' ∧ _unit (out r) = out r' ∧ after r = after r' ∧
   (ok r = true → out r = mkReservation (out r') nullLayer this)) ∧
  (∀ layer, layer ≠ nullLayer →
   let r := reserveTextureImageUnitForLayer this maxUnits h layer rq s in
   let r' := reserveTextureImageUnit_layer maxUnits layer rq s in
   ok r = ok r' ∧ _unit (out r) = out r' ∧ after r = after r' ∧
   (ok r = true → out r = mkReservation (out r') layer this)).
Proof.
  split; [by rewrite forLayer_null|].
  split; [apply reserve_layer_null|]. split.
  - unfold reserveTextureImageUnit_reservation, reserveTextureImageUnit.
    by destruct (first_unused _ _ _).
  - intros layer Hnn.
    unfold reserveTextureImageUnitForLayer, reserveTextureImageUnit_layer.
    rewrite !decide_False by done.
    by destruct (first_unused _ _ _).
Qed.

Lemma null_layer_is_the_only_asymmetry_witness :
  let h := mkReservation 5 L2 9%N in
  let s := after (reserveTextureImageUnit 4 None newTerrainResources) in
  out (reserveTextureImageUnitForLayer 7 4 h nullLayer None s) = h ∧
  out (reserveTextureImageUnit_layer 4 nullLayer None s) = 1 ∧
  out (reserveTextureImageUnitForLayer 7 4 h L1 None s)
  = mkReservation (out (reserveTextureImageUnit_layer 4 L1 None s)) L1 7%N.
Proof.
  intros h s.
  destruct (null_layer_is_the_only_asymmetry 7 4 h None s)
    as ((_ & Hnull & _) & Hraw & _ & Hsame).
  split; [exact Hnull|]. split; [rewrite Hraw; reflexivity|].
  assert (L1 ≠ nullLayer) as Hnn by (unfold L1, nullLayer; lia).
  destruct (Hsame L1 Hnn) as (_ & _ & _ & Hrec).
  apply Hrec. reflexivity.
Defined.

(** C9. A layer-bound reserve with a non-null layer always makes that layer
    a key of [_perLayerReservedUnits], also when the reserve fails on
    exhaustion and returns [false]: a failed reserve for a layer that had no
    entry leaves the empty set mapped under the layer and changes nothing
    else.  The entry then stays through every sequence of calls that holds no
    layer-bound release for that layer, and a layer-bound release for the
    layer, of whatever unit, removes the empty entry. *)
Theorem failed_layer_reserve_leaves_entry
    (maxUnits : Z) (layer : N) (s : TerrainResources) :
  layer ≠ nullLayer →
  (∀ rq, is_Some (_perLayerReservedUnits
            (after (reserveTextureImageUnit_layer maxUnits layer rq s))
          !! layer)) ∧
  (∀ this h rq, is_Some (_perLayerReservedUnits
            (after (reserveTextureImageUnitForLayer this maxUnits h layer rq s))
          !! layer)) ∧
  (∀ rq, let r := reserveTextureImageUnit_layer maxUnits layer rq s in
     ok r = false → _perLayerReservedUnits s !! layer = None →
     after r = mkTerrainResources (_globallyReservedUnits s)
                 (<[layer := ∅]> (_perLayerReservedUnits s))) ∧
  (∀ this h rq,
     let r := reserveTextureImageUnitForLayer this maxUnits h layer rq s in
     ok r = false → _perLayerReservedUnits s !! layer = None →
     after r = mkTerrainResources (_globallyReservedUnits s)
                 (<[layer := ∅]> (_perLayerReservedUnits s))) ∧
  (∀ s', _perLayerReservedUnits s' !! layer = Some ∅ →
     (∀ cs, Forall (λ c, ¬ releases_for_layer layer c) cs →
            is_Some (_perLayerReservedUnits (run cs s') !! layer)) ∧
     (∀ u, _perLayerReservedUnits (releaseTextureImageUnit_layer u layer s')
           !! layer = None)).
Proof.
  intros Hnn.
  assert (∀ rq, is_Some (_perLayerReservedUnits
            (after (reserveTextureImageUnit_layer maxUnits layer rq s))
          !! layer)) as Hkey.
  { intros rq.
    destruct (reserve_layer_inv maxUnits layer rq s Hnn)
      as [(i & _ & _ & _ & ->)|(_ & _ & _ & ->)]; simpl;
      by rewrite lookup_insert_eq. }
  assert (∀ rq, let r := reserveTextureImageUnit_layer maxUnits layer rq s in
     ok r = false → _perLayerReservedUnits s !! layer = None →
     after r = mkTerrainResources (_globallyReservedUnits s)
                 (<[layer := ∅]> (_perLayerReservedUnits s))) as Hfail.
  { intros rq r Hok Hl. subst r.
    destruct (reserve_layer_inv maxUnits layer rq s Hnn)
      as [(i & _ & Hok' & _)|(_ & _ & _ & ->)];
      [by rewrite Hok' in Hok|].
    unfold units_of. by rewrite Hl. }
  split; [done|]. split; [|split; [done|split]].
  - intros this h rq.
    by destruct (forLayer_follows_raw this maxUnits h layer rq s Hnn)
      as (_ & _ & ->).
  - intros this h rq r Hok Hl. subst r.
    destruct (forLayer_follows_raw this maxUnits h layer rq s Hnn)
      as (Hok' & _ & ->).
    apply Hfail; [by rewrite <- Hok'|done].
  - intros s' Hl. split.
    + intros cs Hcs. apply run_keeps_entry; [done|]. by rewrite Hl.
    + intros u. rewrite release_layer_lookup, decide_True by done.
      rewrite Hl. by rewrite decide_True by set_solver.
Qed.

Lemma failed_layer_reserve_leaves_entry_witness :
  let s := after (reserveTextureImageUnit 1 None newTerrainResources) in
  let r := reserveTextureImageUnit_layer 1 L1 None s in
  ok r = false ∧
  after r = mkTerrainResources (_globallyReservedUnits s)
              (<[L1 := ∅]> (_perLayerReservedUnits s)) ∧
  _perLayerReservedUnits (releaseTextureImageUnit_layer 0 L1 (after r)) !! L1
  = None.
Proof.
  intros s r.
  assert (L1 ≠ nullLayer) as Hnn by (unfold L1, nullLayer; lia).
  destruct (failed_layer_reserve_leaves_entry 1 L1 s Hnn)
    as (_ & _ & Hfail & _ & Hlater).
  split; [reflexivity|].
  split; [apply Hfail; reflexivity|].
  destruct (Hlater (after r)) as [_ Hprune]; [reflexivity|].
  apply Hprune.
Defined.

(** * Further properties of the allocator *)

(** ** The reservation forms as calls *)

Lemma step_ReserveHandle this m h rq (s : TerrainResources) :
  step (ReserveHandle this m h rq) s = step (Reserve m rq) s ∧
  granted (ReserveHandle this m h rq) s = granted (Reserve m rq) s.
Proof.
  simpl. by destruct (reservation_follows_raw this m h rq s) as (-> & -> & -> & _).
Qed.

Lemma step_ReserveHandleForLayer this m h l rq (s : TerrainResources) :
  l ≠ nullLayer →
  step (ReserveHandleForLayer this m h l rq) s = step (ReserveLayer m l rq) s ∧
  granted (ReserveHandleForLayer this m h l rq) s
  = granted (ReserveLayer m l rq) s.
Proof.
  intros Hnn. simpl.
  by destruct (forLayer_follows_raw this m h l rq s Hnn) as (-> & -> & ->).
Qed.

Lemma step_ReserveHandleForLayer_null this m h rq (s : TerrainResources) :
  step (ReserveHandleForLayer this m h nullLayer rq) s = s ∧
  granted (ReserveHandleForLayer this m h nullLayer rq) s = None.
Proof. unfold step, granted. by rewrite forLayer_null. Qed.

Lemma step_ReserveLayer_null m rq (s : TerrainResources) :
  step (ReserveLayer m nullLayer rq) s = step (Reserve m rq) s ∧
  granted (ReserveLayer m nullLayer rq) s = granted (Reserve m rq) s.
Proof. unfold step, granted. by rewrite reserve_layer_null. Qed.

(** ** Each call on the two containers, layer by layer *)

Lemma Reserve_summary m rq (s : TerrainResources) :
  _globallyReservedUnits (step (Reserve m rq) s)
  = _globallyReservedUnits s ∪ granted_set (Reserve m rq) s ∧
  _perLayerReservedUnits (step (Reserve m rq) s) = _perLayerReservedUnits s ∧
  (∀ u, granted (Reserve m rq) s = Some u → u ∉ taken_global s).
Proof.
  unfold granted_set. simpl.
  destruct (reserve_inv m rq s)
    as [(i & Hscan & -> & -> & ->)|(_ & -> & _ & ->)]; simpl.
  - split; [done|]. split; [done|]. intros u [= <-].
    by apply first_unused_Some in Hscan as (_ & Hfree & _).
  - split; [set_solver|]. split; done.
Qed.

Lemma ReserveLayer_summary m l rq (s : TerrainResources) :
  l ≠ nullLayer →
  _globallyReservedUnits (step (ReserveLayer m l rq) s)
  = _globallyReservedUnits s ∧
  (∀ l', units_of (step (ReserveLayer m l rq) s) l'
         = if decide (l' = l)
           then units_of s l ∪ granted_set (ReserveLayer m l rq) s
           else units_of s l') ∧
  (∀ u, granted (ReserveLayer m l rq) s = Some u → u ∉ taken_layer s l).
Proof.
  intros Hnn. unfold granted_set. simpl.
  destruct (reserve_layer_inv m l rq s Hnn)
    as [(i & Hscan & -> & -> & ->)|(_ & -> & _ & ->)]; simpl.
  - split; [done|]. split.
    + intros l'. unfold units_of at 1. simpl.
      destruct (decide (l' = l)) as [->|Hne].
      * by rewrite lookup_insert_eq.
      * by rewrite lookup_insert_ne.
    + intros u [= <-].
      by apply first_unused_Some in Hscan as (_ & Hfree & _).
  - split; [done|]. split; [|done].
    intros l'. unfold units_of at 1. simpl.
    destruct (decide (l' = l)) as [->|Hne].
    + rewrite lookup_insert_eq. simpl. set_solver.
    + by rewrite lookup_insert_ne.
Qed.

Lemma units_of_release_layer (u : Z) (layer l : N) (s : TerrainResources) :
  units_of (releaseTextureImageUnit_layer u layer s) l
  = if decide (l = layer) then units_of s layer ∖ {[ u ]} else units_of s l.
Proof.
  unfold units_of. rewrite release_layer_lookup.
  destruct (decide (l = layer)) as [->|]; [|done].
  destruct (_perLayerReservedUnits s !! layer) as [units|]; simpl.
  - by destruct (decide (units ∖ {[ u ]} = ∅)) as [->|].
  - set_solver.
Qed.

Lemma elem_of_taken_global_units (x : Z) (s : TerrainResources) :
  x ∈ taken_global s ↔
  x ∈ _globallyReservedUnits s ∨ ∃ l, x ∈ units_of s l.
Proof.
  rewrite elem_of_taken_global. unfold units_of.
  split; (intros [H|H]; [by left|right]).
  - destruct H as (l & units & Hl & Hx). exists l. by rewrite Hl.
  - destruct H as (l & Hx).
    destruct (_perLayerReservedUnits s !! l) as [units|] eqn:Hl; simpl in Hx.
    + by exists l, units.
    + by apply not_elem_of_empty in Hx.
Qed.

(** What a call does to [_globallyReservedUnits]. *)
Lemma step_global (c : Call) (s : TerrainResources) :
  _globallyReservedUnits (step c s)
  = match c with
    | Reserve _ _ | ReserveHandle _ _ _ _ =>
        _globallyReservedUnits s ∪ granted_set c s
    | ReserveLayer _ l _ =>
        if decide (l = nullLayer)
        then _globallyReservedUnits s ∪ granted_set c s
        else _globallyReservedUnits s
    | ReserveHandleForLayer _ _ _ _ _ => _globallyReservedUnits s
    | Release u => _globallyReservedUnits s ∖ {[ u ]}
    | ReleaseLayer u l =>
        if decide (l = nullLayer) then _globallyReservedUnits s ∖ {[ u ]}
        else _globallyReservedUnits s
    | SetOffLimits u =>
        if (setTextureImageUnitOffLimits u s).1
        then _globallyReservedUnits s ∪ {[ u ]}
        else _globallyReservedUnits s
    end.
Proof.
  destruct c as [m rq|m l rq|this m h rq|this m h l rq|v|v l|v].
  - apply Reserve_summary.
  - destruct (decide (l = nullLayer)) as [->|Hnn].
    + unfold granted_set.
      destruct (step_ReserveLayer_null m rq s) as [-> ->].
      apply Reserve_summary.
    + by apply ReserveLayer_summary.
  - unfold granted_set. destruct (step_ReserveHandle this m h rq s) as [-> ->].
    apply Reserve_summary.
  - destruct (decide (l = nullLayer)) as [->|Hnn].
    + by destruct (step_ReserveHandleForLayer_null this m h rq s) as [-> _].
    + destruct (step_ReserveHandleForLayer this m h l rq s Hnn) as [-> _].
      by apply ReserveLayer_summary.
  - done.
  - apply release_layer_global.
  - simpl. rewrite set_off_limits_after.
    by destruct (setTextureImageUnitOffLimits v s).1.
Qed.

(** What a call does to the set of a layer. *)
Lemma step_units_of (c : Call) (s : TerrainResources) (l : N) :
  units_of (step c s) l
  = match c with
    | ReserveLayer _ l' _ | ReserveHandleForLayer _ _ _ l' _ =>
        if decide (l' ≠ nullLayer ∧ l = l')
        then units_of s l ∪ granted_set c s
        else units_of s l
    | ReleaseLayer u l' =>
        if decide (l = l') then units_of s l ∖ {[ u ]} else units_of s l
    | _ => units_of s l
    end.
Proof.
  assert (∀ m rq, units_of (step (Reserve m rq) s) l = units_of s l) as Hglobal.
  { intros m rq. unfold units_of.
    by destruct (Reserve_summary m rq s) as (_ & -> & _). }
  assert (∀ m l' rq, l' ≠ nullLayer →
            units_of (step (ReserveLayer m l' rq) s) l
            = if decide (l' ≠ nullLayer ∧ l = l')
              then units_of s l ∪ granted_set (ReserveLayer m l' rq) s
              else units_of s l) as Hlayer.
  { intros m l' rq Hnn.
    destruct (ReserveLayer_summary m l' rq s Hnn) as (_ & -> & _).
    destruct (decide (l = l')) as [->|Hne].
    - by rewrite decide_True by done.
    - rewrite decide_False; [done|]. by intros [_ ?]. }
  destruct c as [m rq|m l' rq|this m h rq|this m h l' rq|v|v l'|v].
  - apply Hglobal.
  - destruct (decide (l' = nullLayer)) as [->|Hnn].
    + destruct (step_ReserveLayer_null m rq s) as [-> _].
      rewrite decide_False; [apply Hglobal|]. by intros [? _].
    + by apply Hlayer.
  - destruct (step_ReserveHandle this m h rq s) as [-> _]. apply Hglobal.
  - destruct (decide (l' = nullLayer)) as [->|Hnn].
    + destruct (step_ReserveHandleForLayer_null this m h rq s) as [-> _].
      rewrite decide_False; [done|]. by intros [? _].
    + unfold granted_set.
      destruct (step_ReserveHandleForLayer this m h l' rq s Hnn) as [-> ->].
      by apply Hlayer.
  - done.
  - simpl. rewrite units_of_release_layer.
    by destruct (decide (l = l')) as [->|].
  - simpl. rewrite set_off_limits_after.
    by destruct (setTextureImageUnitOffLimits v s).1.
Qed.

(** The unit a call grants was in use nowhere in the scope of the call. *)
Lemma granted_unused_in_scope (c : Call) (s : TerrainResources) (u : Z) :
  granted c s = Some u →
  match c with
  | Reserve _ _ | ReserveHandle _ _ _ _ => u ∉ taken_global s
  | ReserveLayer _ l _ =>
      if decide (l = nullLayer) then u ∉ taken_global s
      else u ∉ taken_layer s l
  | ReserveHandleForLayer _ _ _ l _ => u ∉ taken_layer s l
  | _ => False
  end.
Proof.
  destruct c as [m rq|m l rq|this m h rq|this m h l rq|v|v l|v];
    try done.
  - apply Reserve_summary.
  - destruct (decide (l = nullLayer)) as [->|Hnn].
    + destruct (step_ReserveLayer_null m rq s) as [_ ->].
      apply Reserve_summary.
    + by apply ReserveLayer_summary.
  - destruct (step_ReserveHandle this m h rq s) as [_ ->].
    apply Reserve_summary.
  - destruct (decide (l = nullLayer)) as [->|Hnn].
    + by destruct (step_ReserveHandleForLayer_null this m h rq s) as [_ ->].
    + destruct (step_ReserveHandleForLayer this m h l rq s Hnn) as [_ ->].
      by apply ReserveLayer_summary.
Qed.

Lemma step_keeps_layer_unit
    (c : Call) (s : TerrainResources) (layer : N) (u : Z) :
  c ≠ ReleaseLayer u layer →
  u ∈ units_of s layer → u ∈ units_of (step c s) layer.
Proof.
  intros Hc Hu. rewrite step_units_of.
  destruct c as [m rq|m l rq|this m h rq|this m h l rq|v|v l|v]; try done.
  - destruct (decide _); set_solver.
  - destruct (decide _); set_solver.
  - destruct (decide (layer = l)) as [->|]; [|done].
    assert (v ≠ u) by congruence. set_solver.
Qed.

Lemma run_keeps_layer_unit
    (cs : list Call) (s : TerrainResources) (layer : N) (u : Z) :
  Forall (λ c, c ≠ ReleaseLayer u layer) cs →
  u ∈ units_of s layer → u ∈ units_of (run cs s) layer.
Proof.
  intros Hcs. revert s.
  induction Hcs as [|c cs Hc _ IH]; intros s Hu; [done|].
  apply IH. by apply step_keeps_layer_unit.
Qed.

Lemma reserve_first_fit
    (maxUnits : Z) (rq : option string) (s : TerrainResources) :
  maxUnits <= INT_MAX + 1 →
  let r := reserveTextureImageUnit maxUnits rq s in
  ok r = true → first_fit maxUnits (taken_global s) (out r).
Proof.
  intros Hmax r Hok. subst r.
  destruct (reserve_inv maxUnits rq s)
    as [(i & Hscan & _ & -> & _)|(_ & Hfail & _)];
    [|by rewrite Hfail in Hok].
  by destruct (scan_first_fit _ _ _ Hmax Hscan) as [-> Hfit].
Qed.

Lemma reserve_layer_first_fit
    (maxUnits : Z) (layer : N) (rq : option string) (s : TerrainResources) :
  maxUnits <= INT_MAX + 1 → layer ≠ nullLayer →
  let r := reserveTextureImageUnit_layer maxUnits layer rq s in
  ok r = true → first_fit maxUnits (taken_layer s layer) (out r).
Proof.
  intros Hmax Hnn r Hok. subst r.
  destruct (reserve_layer_inv maxUnits layer rq s Hnn)
    as [(i & Hscan & _ & -> & _)|(_ & Hfail & _)];
    [|by rewrite Hfail in Hok].
  by destruct (scan_first_fit _ _ _ Hmax Hscan) as [-> Hfit].
Qed.

(** ** Outstanding reservations are exclusive *)

(** X1. A unit granted by a global reserve, raw or through a reservation,
    is granted to nobody else while it is outstanding: after any calls that
    hold no global release of that unit, no reserve of any form returns it.
    In particular two global reserves in a row never return the same unit. *)
Theorem global_reservation_is_exclusive
    (maxUnits : Z) (rq : option string) (s : TerrainResources) :
  (let r := reserveTextureImageUnit maxUnits rq s in
   ok r = true →
   ∀ cs, Forall (λ c, ¬ releases_globally (out r) c) cs →
         ∀ c, granted c (run cs (after r)) ≠ Some (out r)) ∧
  (∀ this h,
   let r := reserveTextureImageUnit_reservation this maxUnits h rq s in
   ok r = true →
   ∀ cs, Forall (λ c, ¬ releases_globally (_unit (out r)) c) cs →
         ∀ c, granted c (run cs (after r)) ≠ Some (_unit (out r))).
Proof.
  assert (let r := reserveTextureImageUnit maxUnits rq s in
   ok r = true →
   ∀ cs, Forall (λ c, ¬ releases_globally (out r) c) cs →
         ∀ c, granted c (run cs (after r)) ≠ Some (out r)) as Hraw.
  { intros r Hok cs Hcs c Hgrant. subst r.
    apply granted_not_global in Hgrant. apply Hgrant.
    apply run_keeps_global; [done|].
    destruct (reserve_granted_unused maxUnits rq s Hok) as [_ ->].
    simpl. set_solver. }
  split; [done|].
  intros this h r Hok. subst r.
  destruct (reservation_follows_raw this maxUnits h rq s)
    as (Hok' & -> & -> & _).
  apply Hraw. by rewrite <- Hok'.
Qed.

Lemma global_reservation_is_exclusive_witness :
  let r := reserveTextureImageUnit 4 None newTerrainResources in
  granted (Reserve 4 None) (run [ReserveLayer 4 L1 None; Release 1] (after r))
  ≠ Some (out r).
Proof.
  intros r.
  destruct (global_reservation_is_exclusive 4 None newTerrainResources)
    as [Hraw _].
  apply Hraw; [reflexivity|].
  repeat constructor; intros [H|H]; discriminate H.
Defined.

(** X2. A unit granted by a layer-bound reserve for a non-null layer stays
    in the set of that layer, and is granted again neither by a global
    reserve nor by a reserve for the same layer, through any calls that hold
    no release of that unit for that layer. *)
Theorem layer_reservation_is_exclusive
    (maxUnits : Z) (layer : N) (rq : option string) (s : TerrainResources) :
  layer ≠ nullLayer →
  let r := reserveTextureImageUnit_layer maxUnits layer rq s in
  ok r = true →
  ∀ cs, Forall (λ c, c ≠ ReleaseLayer (out r) layer) cs →
    out r ∈ units_of (run cs (after r)) layer ∧
    (∀ m rq', granted (Reserve m rq') (run cs (after r)) ≠ Some (out r)) ∧
    (∀ this m h rq',
       granted (ReserveHandle this m h rq') (run cs (after r))
       ≠ Some (out r)) ∧
    (∀ m rq',
       granted (ReserveLayer m layer rq') (run cs (after r))
       ≠ Some (out r)) ∧
    (∀ this m h rq',
       granted (ReserveHandleForLayer this m h layer rq') (run cs (after r))
       ≠ Some (out r)).
Proof.
  intros Hnn r Hok cs Hcs. subst r.
  set (u := out (reserveTextureImageUnit_layer maxUnits layer rq s)) in *.
  set (s' := run cs _).
  assert (u ∈ units_of s' layer) as Hheld.
  { apply run_keeps_layer_unit; [done|].
    destruct (reserve_layer_granted_unused maxUnits layer rq s Hnn Hok)
      as [_ ->].
    unfold units_of at 1. simpl. rewrite lookup_insert_eq. simpl.
    set_solver. }
  assert (u ∈ taken_global s') as Hglobal
    by (apply elem_of_taken_global_units; right; by exists layer).
  assert (u ∈ taken_layer s' layer) as Hlayer
    by (unfold taken_layer; fold (units_of s' layer); set_solver).
  split; [done|].
  repeat split; intros; intros Hgrant;
    apply granted_unused_in_scope in Hgrant;
    rewrite ?decide_False in Hgrant by done; done.
Qed.

Lemma layer_reservation_is_exclusive_witness :
  let r := reserveTextureImageUnit_layer 4 L1 None newTerrainResources in
  granted (Reserve 4 None)
          (run [ReserveLayer 4 L2 None; ReleaseLayer 0 L2] (after r))
  ≠ Some (out r).
Proof.
  intros r.
  assert (L1 ≠ nullLayer) as Hnn by (unfold L1, nullLayer; lia).
  assert (ok r = true) as Hok by reflexivity.
  assert (Forall (λ c, c ≠ ReleaseLayer (out r) L1)
                 [ReserveLayer 4 L2 None; ReleaseLayer 0 L2]) as Hcs
    by (repeat constructor; intros H; discriminate H).
  destruct (layer_reservation_is_exclusive 4 L1 None newTerrainResources
              Hnn Hok _ Hcs) as (_ & Hg & _).
  apply Hg.
Defined.

(** ** Reserve and release, one after the other *)

(** X3. Releasing what a successful reserve just granted undoes the
    reserve.  The global release of the unit of a global reserve gives back
    the allocator as it was.  The layer-bound release of the unit of a
    layer-bound reserve gives back [_globallyReservedUnits] and the set of
    every layer as they were, and the very same allocator unless the layer
    was mapped to an empty set before (that entry is then gone). *)
Theorem release_undoes_reserve
    (maxUnits : Z) (rq : option string) (s : TerrainResources) :
  (let r := reserveTextureImageUnit maxUnits rq s in
   ok r = true → releaseTextureImageUnit (out r) (after r) = s) ∧
  (∀ layer, layer ≠ nullLayer →
   let r := reserveTextureImageUnit_layer maxUnits layer rq s in
   let s' := releaseTextureImageUnit_layer (out r) layer (after r) in
   ok r = true →
   _globallyReservedUnits s' = _globallyReservedUnits s ∧
   (∀ l, units_of s' l = units_of s l) ∧
   (_perLayerReservedUnits s !! layer ≠ Some ∅ → s' = s)).
Proof.
  split.
  - intros r Hok. subst r.
    destruct (reserve_granted_unused maxUnits rq s Hok) as [Hfree ->].
    rewrite elem_of_taken_global in Hfree.
    apply TerrainResources_eq; simpl; [set_solver|done].
  - intros layer Hnn r s' Hok. subst r s'.
    destruct (reserve_layer_granted_unused maxUnits layer rq s Hnn Hok)
      as [Hfree Hafter].
    set (u := out (reserveTextureImageUnit_layer maxUnits layer rq s)) in *.
    rewrite Hafter. unfold taken_layer in Hfree.
    fold (units_of s layer) in Hfree.
    assert ((units_of s layer ∪ {[ u ]}) ∖ {[ u ]} = units_of s layer) as Hback
      by set_solver.
    split; [by rewrite release_layer_global, decide_False by done|].
    split.
    + intros l. rewrite units_of_release_layer.
      destruct (decide (l = layer)) as [->|Hne]; unfold units_of at 1; simpl.
      * by rewrite lookup_insert_eq.
      * by rewrite lookup_insert_ne.
    + intros Hentry. apply TerrainResources_eq.
      { by rewrite release_layer_global, decide_False by done. }
      apply map_eq. intros l. rewrite release_layer_lookup. simpl.
      destruct (decide (l = layer)) as [->|Hne];
        [|by rewrite lookup_insert_ne].
      rewrite lookup_insert_eq, Hback. unfold units_of.
      destruct (_perLayerReservedUnits s !! layer) as [units|]; simpl.
      * rewrite decide_False; [done|]. congruence.
      * by rewrite decide_True.
Qed.

Lemma release_undoes_reserve_witness :
  let s := run [Reserve 4 None; ReserveLayer 4 L1 None] newTerrainResources in
  releaseTextureImageUnit (out (reserveTextureImageUnit 4 None s))
                          (after (reserveTextureImageUnit 4 None s)) = s ∧
  releaseTextureImageUnit_layer
    (out (reserveTextureImageUnit_layer 4 L1 None s)) L1
    (after (reserveTextureImageUnit_layer 4 L1 None s)) = s.
Proof.
  intros s.
  destruct (release_undoes_reserve 4 None s) as [Hg Hl].
  split; [apply Hg; reflexivity|].
  assert (L1 ≠ nullLayer) as Hnn by (unfold L1, nullLayer; lia).
  destruct (Hl L1 Hnn) as (_ & _ & Hsame); [reflexivity|].
  apply Hsame. compute_done.
Defined.

(** X4. A released unit can be reserved again.  With [maxUnits] in the
    range of [int] and [u] in [[0, maxUnits)]: after the global release of
    [u], if no layer holds [u], the next global reserve succeeds and returns
    a unit no larger than [u]; after the release of [u] for a non-null layer,
    if [u] is not in [_globallyReservedUnits], the next reserve for that
    layer succeeds and returns a unit no larger than [u]. *)
Theorem released_unit_is_eligible_again
    (maxUnits u : Z) (rq : option string) (s : TerrainResources) :
  maxUnits <= INT_MAX + 1 → 0 <= u → u < maxUnits →
  ((∀ l, u ∉ units_of s l) →
   let r := reserveTextureImageUnit maxUnits rq
              (releaseTextureImageUnit u s) in
   ok r = true ∧ 0 <= out r ∧ out r <= u) ∧
  (∀ layer, layer ≠ nullLayer → u ∉ _globallyReservedUnits s →
   let r := reserveTextureImageUnit_layer maxUnits layer rq
              (releaseTextureImageUnit_layer u layer s) in
   ok r = true ∧ 0 <= out r ∧ out r <= u).
Proof.
  intros Hmax Hu0 Hum. split.
  - intros Hlayers r. subst r.
    set (s' := releaseTextureImageUnit u s).
    assert (u ∉ taken_global s') as Hfree.
    { rewrite elem_of_taken_global_units. intros [Hin|[l Hin]].
      - simpl in Hin. set_solver.
      - by apply (Hlayers l). }
    destruct (reserve_fails_only_exhausted maxUnits rq s' Hmax)
      as (Hiff & _ & _).
    destruct (ok (reserveTextureImageUnit maxUnits rq s')) eqn:Hok.
    + destruct (reserve_first_fit maxUnits rq s' Hmax Hok)
        as ((Hlo & _) & _ & Hleast).
      split; [done|]. split; [done|]. by apply Hleast.
    + exfalso. apply Hfree. by apply Hiff.
  - intros layer Hnn Hglobal r. subst r.
    set (s' := releaseTextureImageUnit_layer u layer s).
    assert (u ∉ taken_layer s' layer) as Hfree.
    { unfold taken_layer. fold (units_of s' layer). subst s'.
      rewrite units_of_release_layer, release_layer_global.
      rewrite !decide_False by done. rewrite decide_True by done.
      set_solver. }
    destruct (reserve_layer_fails_only_exhausted maxUnits layer rq s' Hmax Hnn)
      as (Hiff & _ & _).
    destruct (ok (reserveTextureImageUnit_layer maxUnits layer rq s')) eqn:Hok.
    + destruct (reserve_layer_first_fit maxUnits layer rq s' Hmax Hnn Hok)
        as ((Hlo & _) & _ & Hleast).
      split; [done|]. split; [done|]. by apply Hleast.
    + exfalso. apply Hfree. by apply Hiff.
Qed.

Lemma released_unit_is_eligible_again_witness :
  let s := run [Reserve 4 None; Reserve 4 None; Reserve 4 None; Reserve 4 None]
               newTerrainResources in
  ok (reserveTextureImageUnit 4 None s) = false ∧
  ok (reserveTextureImageUnit 4 None (releaseTextureImageUnit 1 s)) = true ∧
  out (reserveTextureImageUnit 4 None (releaseTextureImageUnit 1 s)) <= 1.
Proof.
  intros s. split; [reflexivity|].
  assert (4 <= INT_MAX + 1) as Hmax by (unfold INT_MAX; lia).
  assert (0 <= 1) as H0 by lia.
  assert (1 < 4) as H1 by lia.
  destruct (released_unit_is_eligible_again 4 1 None s Hmax H0 H1)
    as [Hg _].
  destruct Hg as (Hok & _ & Hle).
  - intros l. compute_done.
  - split; [exact Hok|exact Hle].
Defined.

(** ** The destructor of a reservation *)

Lemma release_layer_null_without_entry (u : Z) (s : TerrainResources) :
  _perLayerReservedUnits s !! nullLayer = None →
  releaseTextureImageUnit_layer u nullLayer s = releaseTextureImageUnit u s.
Proof.
  intros Hnull. unfold releaseTextureImageUnit_layer.
  rewrite decide_True by done. simpl. by rewrite Hnull.
Qed.

Lemma release_inserted_unit (u : Z) (layer : N) (s : TerrainResources) :
  layer ≠ nullLayer → u ∉ units_of s layer →
  _perLayerReservedUnits s !! layer ≠ Some ∅ →
  releaseTextureImageUnit_layer u layer
    (mkTerrainResources (_globallyReservedUnits s)
       (<[layer := units_of s layer ∪ {[ u ]}]> (_perLayerReservedUnits s)))
  = s.
Proof.
  intros Hnn Hu Hentry.
  assert ((units_of s layer ∪ {[ u ]}) ∖ {[ u ]} = units_of s layer) as Hback
    by set_solver.
  apply TerrainResources_eq.
  { by rewrite release_layer_global, decide_False by done. }
  apply map_eq. intros l. rewrite release_layer_lookup. simpl.
  destruct (decide (l = layer)) as [->|Hne]; [|by rewrite lookup_insert_ne].
  rewrite lookup_insert_eq, Hback. unfold units_of.
  destruct (_perLayerReservedUnits s !! layer) as [units|]; simpl.
  - rewrite decide_False; [done|]. congruence.
  - by rewrite decide_True.
Qed.

(** X6. A reservation taken and then destroyed leaves the allocator as it
    was, for [maxUnits] in the range of [int].  For the global form, on an
    allocator without an entry under the null layer: whether the reserve
    succeeded or failed, the allocator is back to its state before the
    reserve.  For the layer-bound form with a non-null layer that was not
    mapped to an empty set: after a successful reserve likewise; after a
    failed one the destruction releases nothing. *)
Theorem scoped_reservation_round_trip
    (this : N) (maxUnits : Z) (h : TextureImageUnitReservation)
    (rq : option string) (s : TerrainResources)
    (alive : gmap N TerrainResources) :
  maxUnits <= INT_MAX + 1 →
  (_perLayerReservedUnits s !! nullLayer = None →
   let r := reserveTextureImageUnit_reservation this maxUnits h rq s in
   dropReservation (out r) (<[this := after r]> alive) = <[this := s]> alive) ∧
  (∀ layer, layer ≠ nullLayer →
   let r := reserveTextureImageUnitForLayer this maxUnits h layer rq s in
   (ok r = true → _perLayerReservedUnits s !! layer ≠ Some ∅ →
    dropReservation (out r) (<[this := after r]> alive) = <[this := s]> alive) ∧
   (ok r = false →
    dropReservation (out r) (<[this := after r]> alive)
    = <[this := after r]> alive)).
Proof.
  intros Hmax. split.
  - intros Hnull r. subst r.
    unfold reserveTextureImageUnit_reservation.
    destruct (first_unused _ _ _) as [i|] eqn:Hscan; simpl; [|done].
    destruct (scan_first_fit _ _ _ Hmax Hscan) as [Hconv ((Hlo & _) & _)].
    apply first_unused_Some in Hscan as (_ & Hfree & _).
    rewrite elem_of_taken_global in Hfree.
    unfold dropReservation. simpl.
    rewrite decide_True by lia. rewrite lookup_insert_eq, insert_insert_eq.
    f_equal. rewrite release_layer_null_without_entry by done.
    apply TerrainResources_eq; simpl; [set_solver|done].
  - intros layer Hnn r. subst r.
    unfold reserveTextureImageUnitForLayer. rewrite decide_False by done.
    fold (units_of s layer). fold (taken_layer s layer).
    destruct (first_unused _ _ _) as [i|] eqn:Hscan; simpl.
    + split; [|done]. intros _ Hentry.
      destruct (scan_first_fit _ _ _ Hmax Hscan) as [Hconv ((Hlo & _) & _)].
      unfold dropReservation. simpl.
      rewrite decide_True by lia. rewrite lookup_insert_eq, insert_insert_eq.
      f_equal. rewrite insert_insert_eq.
      apply first_unused_Some in Hscan as (_ & Hfree & _).
      apply release_inserted_unit; [done| |done].
      unfold taken_layer in Hfree. fold (units_of s layer) in Hfree.
      set_solver.
    + split; [done|]. intros _. by unfold dropReservation.
Qed.

Lemma scoped_reservation_round_trip_witness :
  let s := run [Reserve 4 None; ReserveLayer 4 L1 None] newTerrainResources in
  let r := reserveTextureImageUnitForLayer 7 4 newReservation L1 None s in
  _unit (out r) = 2 ∧
  dropReservation (out r) (<[7%N := after r]> ∅) = <[7%N := s]> ∅.
Proof.
  intros s r. split; [reflexivity|].
  assert (4 <= INT_MAX + 1) as Hmax by (unfold INT_MAX; lia).
  assert (L1 ≠ nullLayer) as Hnn by (unfold L1, nullLayer; lia).
  destruct (scoped_reservation_round_trip 7 4 newReservation None s ∅ Hmax)
    as [_ Hl].
  destruct (Hl L1 Hnn) as [Hback _].
  apply Hback; [reflexivity|compute_done].
Defined.

(** ** More on releases and off-limits units *)

(** X7. The release of [u] for a non-null layer takes [u] out of the set of
    that layer and touches nothing else: [_globallyReservedUnits] and the
    entry of every other layer stay as they are.  It never leaves the layer
    mapped to an empty set: an entry that runs empty is erased. *)
Theorem layer_release_effect (u : Z) (layer : N) (s : TerrainResources) :
  layer ≠ nullLayer →
  let s' := releaseTextureImageUnit_layer u layer s in
  _globallyReservedUnits s' = _globallyReservedUnits s ∧
  units_of s' layer = units_of s layer ∖ {[ u ]} ∧
  (∀ l, l ≠ layer →
        _perLayerReservedUnits s' !! l = _perLayerReservedUnits s !! l) ∧
  _perLayerReservedUnits s' !! layer ≠ Some ∅.
Proof.
  intros Hnn s'. subst s'.
  split; [by rewrite release_layer_global, decide_False by done|].
  split; [by rewrite units_of_release_layer, decide_True by done|].
  split.
  - intros l Hne. by rewrite release_layer_lookup, decide_False by done.
  - rewrite release_layer_lookup, decide_True by done.
    destruct (_perLayerReservedUnits s !! layer) as [units|]; [|done].
    destruct (decide (units ∖ {[ u ]} = ∅)); congruence.
Qed.

Lemma layer_release_effect_witness :
  let s := mkTerrainResources {[ 0 ]} {[ L1 := {[ 1; 2 ]}; L2 := {[ 1 ]} ]} in
  units_of (releaseTextureImageUnit_layer 1 L1 s) L1 = {[ 1; 2 ]} ∖ {[ 1 ]} ∧
  _perLayerReservedUnits (releaseTextureImageUnit_layer 1 L2 s) !! L2
  ≠ Some ∅.
Proof.
  intros s.
  assert (L1 ≠ nullLayer) as Hnn1 by (unfold L1, nullLayer; lia).
  assert (L2 ≠ nullLayer) as Hnn2 by (unfold L2, nullLayer; lia).
  destruct (layer_release_effect 1 L1 s Hnn1) as (_ & Hunits & _).
  destruct (layer_release_effect 1 L2 s Hnn2) as (_ & _ & _ & Hpruned).
  split; [exact Hunits|exact Hpruned].
Defined.

Lemma set_off_limits_false (u : Z) (s : TerrainResources) :
  ¬ free_everywhere u s → setTextureImageUnitOffLimits u s = (false, s).
Proof.
  intros Hheld.
  rewrite (surjective_pairing (setTextureImageUnitOffLimits u s)).
  rewrite set_off_limits_after.
  destruct (setTextureImageUnitOffLimits u s).1 eqn:Hok; [|done].
  by apply set_off_limits_true in Hok.
Qed.

(** The unit a call grants is in use once the call is over. *)
Lemma granted_is_held (c : Call) (s : TerrainResources) (u : Z) :
  granted c s = Some u → u ∈ taken_global (step c s).
Proof.
  intros Hgrant. rewrite elem_of_taken_global_units.
  pose proof (step_global c s) as HG.
  assert (granted_set c s = {[ u ]}) as Hset
    by (unfold granted_set; by rewrite Hgrant).
  destruct c as [m rq|m l rq|this m h rq|this m h l rq|v|v l|v]; try done.
  - left. rewrite HG, Hset. set_solver.
  - destruct (decide (l = nullLayer)) as [->|Hnn].
    + left. rewrite HG, Hset. set_solver.
    + right. exists l. rewrite step_units_of, decide_True by done.
      rewrite Hset. set_solver.
  - left. rewrite HG, Hset. set_solver.
  - destruct (decide (l = nullLayer)) as [->|Hnn].
    + destruct (step_ReserveHandleForLayer_null this m h rq s) as [_ Hnone].
      by rewrite Hnone in Hgrant.
    + right. exists l. rewrite step_units_of, decide_True by done.
      rewrite Hset. set_solver.
Qed.

(** X8. Marking a unit off limits cannot be repeated: whatever the first
    call returned, a second call for the same unit returns [false] and
    changes nothing.  A successful marking is undone by the global release of
    the unit.  And a unit that a reserve of any form has just granted cannot
    be marked: the call returns [false] and changes nothing. *)
Theorem off_limits_conflicts (u : Z) (s : TerrainResources) :
  let r := setTextureImageUnitOffLimits u s in
  setTextureImageUnitOffLimits u r.2 = (false, r.2) ∧
  (r.1 = true → releaseTextureImageUnit u r.2 = s) ∧
  (∀ c, granted c s = Some u →
        setTextureImageUnitOffLimits u (step c s) = (false, step c s)).
Proof.
  intros r. subst r. split; [|split].
  - apply set_off_limits_false. rewrite set_off_limits_after.
    destruct (setTextureImageUnitOffLimits u s).1 eqn:Hok.
    + intros [Hfree _]. simpl in Hfree. set_solver.
    + intros Hfree. apply set_off_limits_true in Hfree. congruence.
  - intros Hok. rewrite set_off_limits_after, Hok.
    apply set_off_limits_true in Hok as [Hfree _].
    apply TerrainResources_eq; simpl; [set_solver|done].
  - intros c Hgrant. apply set_off_limits_false.
    apply granted_is_held in Hgrant.
    rewrite elem_of_taken_global in Hgrant.
    intros [Hg Hl]. destruct Hgrant as [Hin|(l & units & Hl' & Hin)];
      [done|by apply (Hl l units)].
Qed.

Lemma off_limits_conflicts_witness :
  let r := setTextureImageUnitOffLimits 2 newTerrainResources in
  releaseTextureImageUnit 2 r.2 = newTerrainResources ∧
  (setTextureImageUnitOffLimits 0
     (step (ReserveLayer 4 L1 None) newTerrainResources)).1 = false.
Proof.
  intros r.
  destruct (off_limits_conflicts 2 newTerrainResources) as (_ & Hundo & _).
  destruct (off_limits_conflicts 0 newTerrainResources) as (_ & _ & Hheld).
  split; [apply Hundo; reflexivity|].
  rewrite (Hheld (ReserveLayer 4 L1 None)); reflexivity.
Defined.

(** ** Global reserves on a new allocator *)

Lemma elem_of_first_units (x : Z) (k : nat) :
  x ∈ first_units k ↔ 0 <= x ∧ x < Z.of_nat k.
Proof.
  unfold first_units. rewrite elem_of_list_to_set, elem_of_seqZ. lia.
Qed.

Lemma first_units_succ (k : nat) :
  first_units (S k) = first_units k ∪ {[ Z.of_nat k ]}.
Proof.
  apply set_eq. intros x.
  rewrite elem_of_union, !elem_of_first_units, elem_of_singleton. lia.
Qed.

Lemma taken_global_no_layers (units : gset Z) :
  taken_global (mkTerrainResources units ∅) = units.
Proof. unfold taken_global. simpl. by rewrite map_to_list_empty. Qed.

(** A global reserve on the allocator that holds exactly [[0, k)]. *)
Lemma reserve_on_first_units (maxUnits : Z) (rq : option string) (k : nat) :
  maxUnits <= INT_MAX + 1 →
  let s := mkTerrainResources (first_units k) ∅ in
  let r := reserveTextureImageUnit maxUnits rq s in
  (Z.of_nat k < maxUnits →
   ok r = true ∧ out r = Z.of_nat k ∧
   after r = mkTerrainResources (first_units (S k)) ∅) ∧
  (maxUnits <= Z.of_nat k → ok r = false ∧ out r = -1 ∧ after r = s).
Proof.
  intros Hmax s r. subst r.
  destruct (reserve_fails_only_exhausted maxUnits rq s Hmax)
    as (Hiff & Hminus & _).
  pose proof (taken_global_no_layers (first_units k)) as Htaken.
  fold s in Htaken. split.
  - intros Hk.
    destruct (ok (reserveTextureImageUnit maxUnits rq s)) eqn:Hok.
    + pose proof (reserve_first_fit maxUnits rq s Hmax Hok)
        as ((Hlo & Hhi) & Hfree & Hleast).
      destruct (reserve_granted_unused maxUnits rq s Hok) as [_ Hafter].
      rewrite Htaken in Hfree, Hleast.
      rewrite elem_of_first_units in Hfree.
      assert (out (reserveTextureImageUnit maxUnits rq s) <= Z.of_nat k)
        as Hle.
      { apply Hleast; [lia|done|]. rewrite elem_of_first_units. lia. }
      assert (out (reserveTextureImageUnit maxUnits rq s) = Z.of_nat k)
        as Hout by lia.
      split; [done|]. split; [done|].
      rewrite Hafter, Hout, first_units_succ. done.
    + exfalso. destruct Hiff as [Hex _].
      specialize (Hex eq_refl (Z.of_nat k)). rewrite Htaken in Hex.
      rewrite elem_of_first_units in Hex. lia.
  - intros Hk.
    assert (ok (reserveTextureImageUnit maxUnits rq s) = false) as Hok.
    { apply Hiff. intros j Hj0 Hjm. rewrite Htaken.
      rewrite elem_of_first_units. lia. }
    split; [done|]. split; [by apply Hminus|].
    destruct (reserve_inv maxUnits rq s)
      as [(i & _ & Hok' & _)|(_ & _ & _ & Hafter)]; [congruence|done].
Qed.

Lemma run_snoc (cs : list Call) (c : Call) (s : TerrainResources) :
  run (cs ++ [c]) s = step c (run cs s).
Proof. unfold run. by rewrite foldl_app. Qed.

(** After any number of global reserves on a new allocator the units taken
    are an initial segment, as long as the supply lasts. *)
Lemma run_global_reserves (maxUnits : Z) (rqs : list (option string)) :
  maxUnits <= INT_MAX + 1 →
  run (Reserve maxUnits <$> rqs) newTerrainResources
  = mkTerrainResources
      (first_units (Nat.min (length rqs) (Z.to_nat maxUnits))) ∅.
Proof.
  intros Hmax. induction rqs as [|rq rqs IH] using rev_ind.
  - done.
  - rewrite fmap_app. simpl. rewrite run_snoc, IH. simpl.
    rewrite length_app. simpl.
    destruct (reserve_on_first_units maxUnits rq
                (Nat.min (length rqs) (Z.to_nat maxUnits)) Hmax)
      as [Hmore Hfull].
    destruct (decide (Z.of_nat (length rqs) < maxUnits)) as [Hlt|Hge].
    + destruct Hmore as (_ & _ & ->); [lia|]. f_equal. f_equal. lia.
    + destruct Hfull as (_ & _ & ->); [lia|]. f_equal. f_equal. lia.
Qed.

(** X9. Global reserves on a new allocator count up from 0: for [maxUnits]
    in the range of [int], after [k] global reserves the next one returns
    [k] as long as [k < maxUnits], and fails with [-1] once [k] has reached
    [maxUnits]. *)
Theorem global_reserves_count_up
    (maxUnits : Z) (rqs : list (option string)) (rq : option string) :
  maxUnits <= INT_MAX + 1 →
  let s := run (Reserve maxUnits <$> rqs) newTerrainResources in
  let r := reserveTextureImageUnit maxUnits rq s in
  (Z.of_nat (length rqs) < maxUnits →
   ok r = true ∧ out r = Z.of_nat (length rqs)) ∧
  (maxUnits <= Z.of_nat (length rqs) → ok r = false ∧ out r = -1).
Proof.
  intros Hmax s r. subst r s. rewrite run_global_reserves by done.
  destruct (reserve_on_first_units maxUnits rq
              (Nat.min (length rqs) (Z.to_nat maxUnits)) Hmax)
    as [Hmore Hfull].
  split.
  - intros Hlt. destruct Hmore as (Hok & Hout & _); [lia|].
    split; [done|]. rewrite Hout. lia.
  - intros Hge. destruct Hfull as (Hok & Hout & _); [lia|]. done.
Qed.

Lemma global_reserves_count_up_witness :
  out (reserveTextureImageUnit 8 None
         (run (Reserve 8 <$> [None; None; None]) newTerrainResources)) = 3.
Proof.
  assert (8 <= INT_MAX + 1) as Hmax by (unfold INT_MAX; lia).
  destruct (global_reserves_count_up 8 [None; None; None] None Hmax)
    as [Hmore _].
  destruct Hmore as [_ Hout]; [simpl; lia|]. exact Hout.
Defined.

(** ** Layers are independent of each other *)

(** The raw layer-bound reserve reads [_globallyReservedUnits] and the entry
    of its layer, and writes that entry only. *)
Lemma reserve_layer_local
    (maxUnits : Z) (l : N) (rq : option string) (s s' : TerrainResources) :
  l ≠ nullLayer →
  _globallyReservedUnits s' = _globallyReservedUnits s →
  _perLayerReservedUnits s' !! l = _perLayerReservedUnits s !! l →
  let r := reserveTextureImageUnit_layer maxUnits l rq s in
  let r' := reserveTextureImageUnit_layer maxUnits l rq s' in
  ok r' = ok r ∧ out r' = out r ∧ logged r' = logged r ∧
  ∃ units,
    after r = mkTerrainResources (_globallyReservedUnits s)
                (<[l := units]> (_perLayerReservedUnits s)) ∧
    after r' = mkTerrainResources (_globallyReservedUnits s')
                 (<[l := units]> (_perLayerReservedUnits s')).
Proof.
  intros Hnn HG HP. unfold reserveTextureImageUnit_layer.
  rewrite !decide_False by done. rewrite HG, HP.
  destruct (first_unused _ _ _) as [i|]; simpl;
    (split; [done|]); (split; [done|]); (split; [done|]);
    eexists; rewrite ?insert_insert_eq; done.
Qed.

(** X10. Layer-bound reserves for two distinct non-null layers commute:
    each returns the same result and the same unit whether it runs before or
    after the other, and the allocator ends in the same state either way. *)
Theorem layer_reserves_commute
    (m1 m2 : Z) (l1 l2 : N) (rq1 rq2 : option string) (s : TerrainResources) :
  l1 ≠ nullLayer → l2 ≠ nullLayer → l1 ≠ l2 →
  let a1 := reserveTextureImageUnit_layer m1 l1 rq1 s in
  let a2 := reserveTextureImageUnit_layer m2 l2 rq2 s in
  let b2 := reserveTextureImageUnit_layer m2 l2 rq2 (after a1) in
  let b1 := reserveTextureImageUnit_layer m1 l1 rq1 (after a2) in
  (ok b2 = ok a2 ∧ out b2 = out a2) ∧
  (ok b1 = ok a1 ∧ out b1 = out a1) ∧
  after b2 = after b1.
Proof.
  intros Hnn1 Hnn2 Hne a1 a2 b2 b1. subst a1 a2 b2 b1.
  assert (∀ m l rq l', l ≠ nullLayer → l' ≠ l →
            _globallyReservedUnits
              (after (reserveTextureImageUnit_layer m l rq s))
            = _globallyReservedUnits s ∧
            _perLayerReservedUnits
              (after (reserveTextureImageUnit_layer m l rq s)) !! l'
            = _perLayerReservedUnits s !! l') as Hframe.
  { intros m l rq l' Hnn Hl'.
    destruct (reserve_layer_inv m l rq s Hnn)
      as [(i & _ & _ & _ & ->)|(_ & _ & _ & ->)]; simpl;
      by rewrite lookup_insert_ne. }
  destruct (Hframe m1 l1 rq1 l2 Hnn1) as [HG1 HP1]; [done|].
  destruct (Hframe m2 l2 rq2 l1 Hnn2) as [HG2 HP2]; [done|].
  destruct (reserve_layer_local m2 l2 rq2 s _ Hnn2 HG1 HP1)
    as (Hok2 & Hout2 & _ & V2 & Ha2 & Hb2).
  destruct (reserve_layer_local m1 l1 rq1 s _ Hnn1 HG2 HP2)
    as (Hok1 & Hout1 & _ & V1 & Ha1 & Hb1).
  split; [done|]. split; [done|].
  rewrite Hb2, Hb1, HG1, HG2. rewrite Ha1, Ha2. simpl.
  f_equal. by apply insert_insert_ne.
Qed.

Lemma layer_reserves_commute_witness :
  let s := run [Reserve 4 None; ReserveLayer 4 L1 None] newTerrainResources in
  after (reserveTextureImageUnit_layer 4 L2 None
           (after (reserveTextureImageUnit_layer 4 L1 None s)))
  = after (reserveTextureImageUnit_layer 4 L1 None
             (after (reserveTextureImageUnit_layer 4 L2 None s))).
Proof.
  intros s.
  assert (L1 ≠ nullLayer) as Hnn1 by (unfold L1, nullLayer; lia).
  assert (L2 ≠ nullLayer) as Hnn2 by (unfold L2, nullLayer; lia).
  assert (L1 ≠ L2) as Hne by (unfold L1, L2; lia).
  exact (proj2 (proj2
    (layer_reserves_commute 4 4 L1 L2 None None s Hnn1 Hnn2 Hne))).
Defined.

(** ** Calls that add and calls that remove *)

Lemma step_grows (c : Call) (s : TerrainResources) :
  is_release c = false →
  _globallyReservedUnits s ⊆ _globallyReservedUnits (step c s) ∧
  ∀ l, units_of s l ⊆ units_of (step c s) l.
Proof.
  intros Hc. split.
  - rewrite step_global.
    destruct c as [m rq|m l rq|this m h rq|this m h l rq|v|v l|v];
      try done; try set_solver.
    + destruct (decide _); set_solver.
    + destruct (setTextureImageUnitOffLimits v s).1; set_solver.
  - intros l'. rewrite step_units_of.
    destruct c as [m rq|m l rq|this m h rq|this m h l rq|v|v l|v];
      try done; destruct (decide _); set_solver.
Qed.

Lemma step_shrinks (c : Call) (s : TerrainResources) :
  is_release c = true →
  _globallyReservedUnits (step c s) ⊆ _globallyReservedUnits s ∧
  ∀ l, units_of (step c s) l ⊆ units_of s l.
Proof.
  intros Hc. split.
  - rewrite step_global.
    destruct c as [m rq|m l rq|this m h rq|this m h l rq|v|v l|v];
      try done; [set_solver|]. destruct (decide _); set_solver.
  - intros l'. rewrite step_units_of.
    destruct c as [m rq|m l rq|this m h rq|this m h l rq|v|v l|v];
      try done. destruct (decide _); set_solver.
Qed.

Lemma run_grows (cs : list Call) (s : TerrainResources) :
  Forall (λ c, is_release c = false) cs →
  _globallyReservedUnits s ⊆ _globallyReservedUnits (run cs s) ∧
  ∀ l, units_of s l ⊆ units_of (run cs s) l.
Proof.
  intros Hcs. revert s.
  induction Hcs as [|c cs Hc _ IH]; intros s; [done|].
  destruct (step_grows c s Hc) as [HG HP].
  destruct (IH (step c s)) as [HG' HP'].
  split; [set_solver|]. intros l. specialize (HP l). specialize (HP' l).
  simpl. set_solver.
Qed.

(** X11. Reserves and off-limits markings only add, releases only remove.
    A call that is not a release leaves every unit of
    [_globallyReservedUnits] and of every layer in place and keeps every
    entry of [_perLayerReservedUnits]; in particular a reservation form never
    gives back the unit its reservation held before.  A release adds no unit
    and creates no entry. *)
Theorem calls_add_or_remove (c : Call) (s : TerrainResources) :
  (is_release c = false →
   _globallyReservedUnits s ⊆ _globallyReservedUnits (step c s) ∧
   (∀ l, units_of s l ⊆ units_of (step c s) l) ∧
   (∀ l, is_Some (_perLayerReservedUnits s !! l) →
         is_Some (_perLayerReservedUnits (step c s) !! l))) ∧
  (is_release c = true →
   _globallyReservedUnits (step c s) ⊆ _globallyReservedUnits s ∧
   (∀ l, units_of (step c s) l ⊆ units_of s l) ∧
   (∀ l, is_Some (_perLayerReservedUnits (step c s) !! l) →
         is_Some (_perLayerReservedUnits s !! l))).
Proof.
  split; intros Hc.
  - destruct (step_grows c s Hc) as [HG HP].
    split; [done|]. split; [done|].
    intros l. apply step_keeps_entry. intros [u ->]. done.
  - destruct (step_shrinks c s Hc) as [HG HP].
    split; [done|]. split; [done|].
    intros l. destruct c as [| | | |v|v l'|]; try done. simpl.
    rewrite release_layer_lookup.
    destruct (decide (l = l')) as [->|]; [|done].
    destruct (_perLayerReservedUnits s !! l'); [done|].
    by intros [? ?].
Qed.

Lemma calls_add_or_remove_witness :
  let s := mkTerrainResources {[ 0 ]} {[ L1 := {[ 1 ]} ]} in
  ({[ 0 ]} : gset Z)
    ⊆ _globallyReservedUnits
        (step (ReserveHandle 7 4 (mkReservation 0 nullLayer 7%N) None) s) ∧
  _globallyReservedUnits (step (ReleaseLayer 0 nullLayer) s) ⊆ {[ 0 ]}.
Proof.
  intros s.
  destruct (calls_add_or_remove
              (ReserveHandle 7 4 (mkReservation 0 nullLayer 7%N) None) s)
    as [Hadd _].
  destruct (calls_add_or_remove (ReleaseLayer 0 nullLayer) s) as [_ Hrem].
  destruct Hadd as [HG _]; [reflexivity|].
  destruct Hrem as [HG' _]; [reflexivity|].
  split; [exact HG|exact HG'].
Defined.

Lemma first_unused_None_mono (taken taken' : gset Z) (i : Z) (fuel : nat) :
  taken ⊆ taken' →
  first_unused taken i fuel = None → first_unused taken' i fuel = None.
Proof.
  intros Hsub. rewrite !first_unused_None. intros H j Hj. apply Hsub, H, Hj.
Qed.

Lemma reserve_fails_iff_scan
    (maxUnits : Z) (rq : option string) (s : TerrainResources) :
  ok (reserveTextureImageUnit maxUnits rq s) = false ↔
  first_unused (taken_global s) 0 (Z.to_nat maxUnits) = None.
Proof.
  destruct (reserve_inv maxUnits rq s)
    as [(i & -> & -> & _)|(-> & -> & _)]; done.
Qed.

Lemma reserve_layer_fails_iff_scan
    (maxUnits : Z) (layer : N) (rq : option string) (s : TerrainResources) :
  layer ≠ nullLayer →
  ok (reserveTextureImageUnit_layer maxUnits layer rq s) = false ↔
  first_unused (taken_layer s layer) 0 (Z.to_nat maxUnits) = None.
Proof.
  intros Hnn. destruct (reserve_layer_inv maxUnits layer rq s Hnn)
    as [(i & -> & -> & _)|(-> & -> & _)]; done.
Qed.

(** X12. Exhaustion lasts until a release.  If a global reserve fails, then
    after any calls among which there is no release every global reserve
    with the same [maxUnits] fails as well; likewise for the reserves of a
    non-null layer. *)
Theorem exhaustion_lasts_until_release
    (maxUnits : Z) (rq : option string) (s : TerrainResources)
    (cs : list Call) :
  Forall (λ c, is_release c = false) cs →
  (ok (reserveTextureImageUnit maxUnits rq s) = false →
   ∀ rq', ok (reserveTextureImageUnit maxUnits rq' (run cs s)) = false) ∧
  (∀ layer, layer ≠ nullLayer →
   ok (reserveTextureImageUnit_layer maxUnits layer rq s) = false →
   ∀ rq', ok (reserveTextureImageUnit_layer maxUnits layer rq' (run cs s))
          = false).
Proof.
  intros Hcs. destruct (run_grows cs s Hcs) as [HG HP]. split.
  - rewrite reserve_fails_iff_scan. intros Hscan rq'.
    apply reserve_fails_iff_scan.
    apply (first_unused_None_mono (taken_global s)); [|done].
    intros x. rewrite !elem_of_taken_global_units.
    intros [Hx|[l Hx]]; [left; by apply HG|right; exists l; by apply HP].
  - intros layer Hnn. rewrite reserve_layer_fails_iff_scan by done.
    intros Hscan rq'. apply reserve_layer_fails_iff_scan; [done|].
    apply (first_unused_None_mono (taken_layer s layer)); [|done].
    unfold taken_layer. fold (units_of s layer).
    fold (units_of (run cs s) layer). specialize (HP layer). set_solver.
Qed.

Lemma exhaustion_lasts_until_release_witness :
  let s := run [Reserve 2 None; SetOffLimits 1] newTerrainResources in
  ok (reserveTextureImageUnit 2 None
        (run [ReserveLayer 2 L1 None; SetOffLimits 5] s)) = false.
Proof.
  intros s.
  assert (Forall (λ c, is_release c = false)
                 [ReserveLayer 2 L1 None; SetOffLimits 5]) as Hcs
    by (repeat constructor).
  destruct (exhaustion_lasts_until_release 2 None s _ Hcs) as [Hg _].
  apply Hg. reflexivity.
Defined.

(** X13. Releasing a unit of an exhausted allocator hands exactly that unit
    to the next reserve.  For [maxUnits] in the range of [int] and [u] in
    [[0, maxUnits)]: if a global reserve fails and no layer holds [u], then
    after the global release of [u] the next global reserve returns [u]; if
    a reserve for a non-null layer fails and [u] is not in
    [_globallyReservedUnits], then after the release of [u] for that layer
    the next reserve for it returns [u]. *)
Theorem release_hands_over_its_unit
    (maxUnits u : Z) (rq rq' : option string) (s : TerrainResources) :
  maxUnits <= INT_MAX + 1 → 0 <= u → u < maxUnits →
  (ok (reserveTextureImageUnit maxUnits rq s) = false →
   (∀ l, u ∉ units_of s l) →
   let r := reserveTextureImageUnit maxUnits rq'
              (releaseTextureImageUnit u s) in
   ok r = true ∧ out r = u) ∧
  (∀ layer, layer ≠ nullLayer →
   ok (reserveTextureImageUnit_layer maxUnits layer rq s) = false →
   u ∉ _globallyReservedUnits s →
   let r := reserveTextureImageUnit_layer maxUnits layer rq'
              (releaseTextureImageUnit_layer u layer s) in
   ok r = true ∧ out r = u).
Proof.
  intros Hmax Hu0 Hum. split.
  - intros Hfail Hlayers r. subst r.
    set (s' := releaseTextureImageUnit u s).
    apply (proj1 (reserve_fails_only_exhausted maxUnits rq s Hmax)) in Hfail.
    assert (∀ x, x ∈ taken_global s' ↔ x ∈ taken_global s ∧ x ≠ u) as Htaken.
    { intros x. rewrite !elem_of_taken_global_units. subst s'. simpl.
      unfold units_of. simpl. fold (units_of s).
      split.
      - intros [Hx|[l Hx]]; [set_solver|].
        split; [right; by exists l|]. intros ->. by apply (Hlayers l).
      - intros [[Hx|[l Hx]] Hne]; [left; set_solver|right; by exists l]. }
    destruct (reserve_fails_only_exhausted maxUnits rq' s' Hmax)
      as (Hiff & _ & _).
    destruct (ok (reserveTextureImageUnit maxUnits rq' s')) eqn:Hok.
    + split; [done|].
      destruct (reserve_first_fit maxUnits rq' s' Hmax Hok)
        as ((Hlo & Hhi) & Hfree & _).
      rewrite Htaken in Hfree.
      destruct (decide (out (reserveTextureImageUnit maxUnits rq' s') = u))
        as [|Hne]; [done|].
      exfalso. apply Hfree. split; [by apply Hfail|done].
    + exfalso. destruct Hiff as [Hex _].
      specialize (Hex eq_refl u Hu0 Hum). apply Htaken in Hex. by destruct Hex.
  - intros layer Hnn Hfail Hglobal r. subst r.
    set (s' := releaseTextureImageUnit_layer u layer s).
    apply (proj1 (reserve_layer_fails_only_exhausted maxUnits layer rq s
                    Hmax Hnn)) in Hfail.
    assert (∀ x, x ∈ taken_layer s' layer ↔ x ∈ taken_layer s layer ∧ x ≠ u)
      as Htaken.
    { intros x. unfold taken_layer. fold (units_of s' layer).
      fold (units_of s layer). subst s'.
      rewrite units_of_release_layer, release_layer_global.
      rewrite !decide_False by done. rewrite decide_True by done.
      set_solver. }
    destruct (reserve_layer_fails_only_exhausted maxUnits layer rq' s' Hmax Hnn)
      as (Hiff & _ & _).
    destruct (ok (reserveTextureImageUnit_layer maxUnits layer rq' s'))
      eqn:Hok.
    + split; [done|].
      destruct (reserve_layer_first_fit maxUnits layer rq' s' Hmax Hnn Hok)
        as ((Hlo & Hhi) & Hfree & _).
      rewrite Htaken in Hfree.
      destruct (decide
        (out (reserveTextureImageUnit_layer maxUnits layer rq' s') = u))
        as [|Hne]; [done|].
      exfalso. apply Hfree. split; [by apply Hfail|done].
    + exfalso. destruct Hiff as [Hex _].
      specialize (Hex eq_refl u Hu0 Hum). apply Htaken in Hex. by destruct Hex.
Qed.

Lemma release_hands_over_its_unit_witness :
  let s := run (Reserve 4 <$> [None; None; None; None]) newTerrainResources in
  out (reserveTextureImageUnit 4 None (releaseTextureImageUnit 2 s)) = 2.
Proof.
  intros s.
  assert (4 <= INT_MAX + 1) as Hmax by (unfold INT_MAX; lia).
  assert (0 <= 2) as H0 by lia.
  assert (2 < 4) as H1 by lia.
  destruct (release_hands_over_its_unit 4 2 None None s Hmax H0 H1)
    as [Hg _].
  destruct Hg as [_ Hout]; [reflexivity|intros l; compute_done|exact Hout].
Defined.

(** ** The info trace *)



(** ** Units stay within the supply *)

Lemma granted_in_range (bound : Z) (c : Call) (s : TerrainResources) (u : Z) :
  bound <= INT_MAX + 1 → call_within bound c →
  granted c s = Some u → 0 <= u ∧ u < bound.
Proof.
  intros Hmax Hc.
  assert (∀ m rq, m <= bound → granted (Reserve m rq) s = Some u →
                  0 <= u ∧ u < bound) as Hglobal.
  { intros m rq Hm. simpl.
    destruct (reserve_fails_only_exhausted m rq s) as (_ & _ & Hrange);
      [lia|].
    destruct (ok _); [|done]. intros [= <-].
    destruct Hrange; [done|lia]. }
  assert (∀ m l rq, m <= bound → granted (ReserveLayer m l rq) s = Some u →
                    0 <= u ∧ u < bound) as Hlayer.
  { intros m l rq Hm. destruct (decide (l = nullLayer)) as [->|Hnn].
    - destruct (step_ReserveLayer_null m rq s) as [_ ->]. by apply Hglobal.
    - simpl.
      destruct (reserve_layer_fails_only_exhausted m l rq s)
        as (_ & _ & Hrange); [lia|done|].
      destruct (ok _); [|done]. intros [= <-].
      destruct Hrange; [done|lia]. }
  destruct c as [m rq|m l rq|this m h rq|this m h l rq|v|v l|v]; try done.
  - by apply Hglobal.
  - by apply Hlayer.
  - destruct (step_ReserveHandle this m h rq s) as [_ ->]. by apply Hglobal.
  - destruct (decide (l = nullLayer)) as [->|Hnn].
    + by destruct (step_ReserveHandleForLayer_null this m h rq s) as [_ ->].
    + destruct (step_ReserveHandleForLayer this m h l rq s Hnn) as [_ ->].
      by apply Hlayer.
Qed.

Lemma granted_set_in_range
    (bound : Z) (c : Call) (s : TerrainResources) (x : Z) :
  bound <= INT_MAX + 1 → call_within bound c →
  x ∈ granted_set c s → 0 <= x ∧ x < bound.
Proof.
  intros Hmax Hc. unfold granted_set.
  destruct (granted c s) as [u|] eqn:Hgrant; simpl.
  - intros ->%elem_of_singleton. by eapply granted_in_range.
  - by intros ?%not_elem_of_empty.
Qed.

Lemma step_within (bound : Z) (c : Call) (s : TerrainResources) :
  bound <= INT_MAX + 1 → call_within bound c →
  (∀ x, x ∈ taken_global s → 0 <= x ∧ x < bound) →
  ∀ x, x ∈ taken_global (step c s) → 0 <= x ∧ x < bound.
Proof.
  intros Hmax Hc Hs x.
  pose proof (granted_set_in_range bound c s x Hmax Hc) as Hnew.
  assert (∀ y, y ∈ _globallyReservedUnits s → 0 <= y ∧ y < bound) as HG
    by (intros y Hy; apply Hs, elem_of_taken_global_units; by left).
  assert (∀ l y, y ∈ units_of s l → 0 <= y ∧ y < bound) as HP
    by (intros l y Hy; apply Hs, elem_of_taken_global_units; right;
        by exists l).
  rewrite elem_of_taken_global_units. intros [Hx|[l Hx]].
  - rewrite step_global in Hx.
    destruct c as [m rq|m l rq|this m h rq|this m h l rq|v|v l|v].
    + apply elem_of_union in Hx as [Hx|Hx]; [by apply HG|by apply Hnew].
    + destruct (decide _);
        [apply elem_of_union in Hx as [Hx|Hx]; [by apply HG|by apply Hnew]
        |by apply HG].
    + apply elem_of_union in Hx as [Hx|Hx]; [by apply HG|by apply Hnew].
    + by apply HG.
    + apply HG. set_solver.
    + destruct (decide _); apply HG; set_solver.
    + destruct (setTextureImageUnitOffLimits v s).1; [|by apply HG].
      apply elem_of_union in Hx as [Hx|Hx]; [by apply HG|].
      apply elem_of_singleton in Hx as ->. exact Hc.
  - rewrite step_units_of in Hx.
    destruct c as [m rq|m l' rq|this m h rq|this m h l' rq|v|v l'|v];
      try (by apply (HP l)).
    + destruct (decide _); [|by apply (HP l)].
      apply elem_of_union in Hx as [Hx|Hx]; [by apply (HP l)|by apply Hnew].
    + destruct (decide _); [|by apply (HP l)].
      apply elem_of_union in Hx as [Hx|Hx]; [by apply (HP l)|by apply Hnew].
    + destruct (decide _); apply (HP l); set_solver.
Qed.

Lemma run_within (bound : Z) (cs : list Call) (s : TerrainResources) :
  bound <= INT_MAX + 1 → Forall (call_within bound) cs →
  (∀ x, x ∈ taken_global s → 0 <= x ∧ x < bound) →
  ∀ x, x ∈ taken_global (run cs s) → 0 <= x ∧ x < bound.
Proof.
  intros Hmax Hcs. revert s.
  induction Hcs as [|c cs Hc _ IH]; intros s Hs; [done|].
  apply IH. by apply step_within.
Qed.

Lemma size_first_units (k : nat) : size (first_units k) = k.
Proof.
  unfold first_units. rewrite size_list_to_set by apply NoDup_seqZ.
  rewrite length_seqZ. lia.
Qed.

(** X15. The allocator never holds more than the supply.  On an allocator
    driven from new by calls that all stay within [bound] units ([bound] in
    the range of [int]; reserves scanning at most [bound] indices,
    off-limits markings of units of [[0, bound)], any releases), every unit
    in [_globallyReservedUnits] and in the set of any layer lies in
    [[0, bound)], so none of these sets has more than [bound] members. *)
Theorem units_stay_within_bound (bound : Z) (cs : list Call) :
  bound <= INT_MAX + 1 → Forall (call_within bound) cs →
  let s := run cs newTerrainResources in
  (∀ x, x ∈ _globallyReservedUnits s → 0 <= x ∧ x < bound) ∧
  (∀ l units, _perLayerReservedUnits s !! l = Some units →
     ∀ x, x ∈ units → 0 <= x ∧ x < bound) ∧
  (size (_globallyReservedUnits s) ≤ Z.to_nat bound)%nat ∧
  (∀ l units, _perLayerReservedUnits s !! l = Some units →
     (size units ≤ Z.to_nat bound)%nat).
Proof.
  intros Hmax Hcs s.
  assert (∀ x, x ∈ taken_global s → 0 <= x ∧ x < bound) as Hs.
  { apply run_within; [done|done|].
    intros x. rewrite elem_of_taken_global. simpl.
    intros [Hx|(l & units & Hl & _)]; [by apply not_elem_of_empty in Hx|].
    by rewrite lookup_empty in Hl. }
  assert (∀ units : gset Z, (∀ x, x ∈ units → 0 <= x ∧ x < bound) →
            (size units ≤ Z.to_nat bound)%nat) as Hsize.
  { intros units Hunits.
    rewrite <- (size_first_units (Z.to_nat bound)).
    apply subseteq_size. intros x Hx. apply elem_of_first_units.
    specialize (Hunits x Hx). lia. }
  assert (∀ x, x ∈ _globallyReservedUnits s → 0 <= x ∧ x < bound) as HG
    by (intros x Hx; apply Hs, elem_of_taken_global; by left).
  assert (∀ l units, _perLayerReservedUnits s !! l = Some units →
            ∀ x, x ∈ units → 0 <= x ∧ x < bound) as HP
    by (intros l units Hl x Hx; apply Hs, elem_of_taken_global; right;
        by exists l, units).
  split; [done|]. split; [done|].
  split; [by apply Hsize|]. intros l units Hl. apply Hsize. by apply (HP l).
Qed.

Lemma units_stay_within_bound_witness :
  let s := run [Reserve 4 None; SetOffLimits 3; ReserveLayer 2 L1 None;
                Release 0; ReserveLayer 4 L1 None] newTerrainResources in
  (size (_globallyReservedUnits s) ≤ Z.to_nat 4)%nat.
Proof.
  intros s.
  assert (4 <= INT_MAX + 1) as Hmax by (unfold INT_MAX; lia).
  assert (Forall (call_within 4)
            [Reserve 4 None; SetOffLimits 3; ReserveLayer 2 L1 None;
             Release 0; ReserveLayer 4 L1 None]) as Hcs
    by (repeat constructor; simpl; lia).
  exact (proj1 (proj2 (proj2 (units_stay_within_bound 4 _ Hmax Hcs)))).
Defined.

(** * Beyond the range of [int] *)

(** Marking a list of distinct free units off limits, one after the other,
    puts them all into [_globallyReservedUnits]. *)
Lemma run_set_off_limits (us : list Z) :
  ∀ units : gset Z, NoDup us → (∀ u, u ∈ us → u ∉ units) →
  run (SetOffLimits <$> us) (mkTerrainResources units ∅)
  = mkTerrainResources (units ∪ list_to_set us) ∅.
Proof.
  induction us as [|u us IH]; intros units Hnodup Hfresh.
  - simpl. f_equal. set_solver.
  - apply NoDup_cons in Hnodup as [Hu Hnodup].
    assert (free_everywhere u (mkTerrainResources units ∅)) as Hfree.
    { split; [apply Hfresh; left|].
      simpl. intros l units' Hl. by rewrite lookup_empty in Hl. }
    apply set_off_limits_true in Hfree.
    change (run (SetOffLimits <$> u :: us) (mkTerrainResources units ∅))
      with (run (SetOffLimits <$> us)
              (setTextureImageUnitOffLimits u (mkTerrainResources units ∅)).2).
    rewrite set_off_limits_after, Hfree. simpl.
    rewrite IH; [f_equal; set_solver|done|].
    intros v Hv.
    assert (v ∉ units) by (apply Hfresh; by right).
    assert (v ≠ u) by (intros ->; done). set_solver.
Qed.

Lemma elem_of_taken_after_marking (us : list Z) (x : Z) :
  NoDup us →
  x ∈ taken_global (run (SetOffLimits <$> us) newTerrainResources) ↔ x ∈ us.
Proof.
  intros Hnodup. unfold newTerrainResources.
  rewrite (run_set_off_limits us ∅ Hnodup)
    by (intros u _; apply not_elem_of_empty).
  rewrite taken_global_no_layers, elem_of_union, elem_of_list_to_set.
  split; [intros [H|H]; [by apply not_elem_of_empty in H|done]|by right].
Qed.

Lemma elem_of_every_index_off_limits (x : Z) :
  x ∈ taken_global every_index_off_limits ↔ 0 <= x ∧ x <= INT_MAX.
Proof.
  unfold every_index_off_limits.
  rewrite (elem_of_taken_after_marking _ x (NoDup_seqZ _ _)).
  rewrite elem_of_seqZ. lia.
Qed.

Lemma every_index_off_limits_reachable : reachable every_index_off_limits.
Proof. apply reachable_run. constructor. Qed.

(** With more than [INT_MAX + 1] indices to scan and every unit number from
    0 to [INT_MAX] in use, the scan stops at the index [INT_MAX + 1], which
    is [INT_MIN] as an [int]: the global reserve succeeds with that unit. *)
Lemma reserve_beyond_int_range
    (maxUnits : Z) (rq : option string) (s : TerrainResources) :
  INT_MAX + 1 < maxUnits →
  (∀ j, 0 <= j → j <= INT_MAX → j ∈ taken_global s) →
  INT_MIN ∉ taken_global s →
  ok (reserveTextureImageUnit maxUnits rq s) = true ∧
  out (reserveTextureImageUnit maxUnits rq s) = INT_MIN.
Proof.
  intros Hmax Hfull Hmin.
  assert (Z.of_nat (Z.to_nat maxUnits) = maxUnits) as Hfuel
    by (apply Z2Nat.id; unfold INT_MAX in Hmax; lia).
  assert (to_int (INT_MAX + 1) = INT_MIN) as Hwrap.
  { unfold to_int. rewrite decide_False by lia.
    unfold INT_MAX, INT_MIN. lia. }
  destruct (reserve_inv maxUnits rq s)
    as [(i & Hscan & Hok & Hout & _)|(Hscan & _)].
  - split; [done|]. rewrite Hout.
    apply first_unused_Some in Hscan as ((Hlo & Hhi) & Hfree & Hbelow).
    destruct (decide (i <= INT_MAX)) as [Hsmall|Hlarge].
    { exfalso. apply Hfree. rewrite to_int_small by done. by apply Hfull. }
    destruct (decide (i = INT_MAX + 1)) as [->|Hne]; [done|].
    exfalso. apply Hmin. rewrite <- Hwrap. apply Hbelow.
    unfold INT_MAX in *. lia.
  - exfalso. apply Hmin. rewrite <- Hwrap.
    rewrite first_unused_None in Hscan. apply Hscan. rewrite Hfuel.
    unfold INT_MAX in *. lia.
Qed.

Lemma reserve_on_every_index_off_limits (rq : option string) :
  ok (reserveTextureImageUnit (INT_MAX + 2) rq every_index_off_limits) = true ∧
  out (reserveTextureImageUnit (INT_MAX + 2) rq every_index_off_limits)
  = INT_MIN.
Proof.
  apply reserve_beyond_int_range.
  - lia.
  - intros j Hj0 Hjm. by apply elem_of_every_index_off_limits.
  - rewrite elem_of_every_index_off_limits. unfold INT_MIN. lia.
Qed.

(** C1 as it is stated does not hold for every [maxUnits].  With
    [INT_MAX + 2] units to scan, on the allocator whose units 0 to [INT_MAX]
    are off limits, the global reserve succeeds, and the unit it returns is
    not the first fit: it is not an index of [[0, maxUnits)] at all. *)
Lemma first_fit_breaks_beyond_int_range :
  let s := every_index_off_limits in
  let r := reserveTextureImageUnit (INT_MAX + 2) None s in
  reachable s ∧ ok r = true ∧
  ¬ first_fit (INT_MAX + 2) (taken_global s) (out r).
Proof.
  intros s r. subst s r.
  destruct (reserve_on_every_index_off_limits None) as [Hok Hout].
  split; [apply every_index_off_limits_reachable|]. split; [exact Hok|].
  rewrite Hout. intros [[Hlo _] _]. unfold INT_MIN in Hlo. lia.
Qed.

(** C5 as it is stated does not hold for every [maxUnits].  With
    [INT_MAX + 2] units to scan, on the allocator whose units 0 to [INT_MAX]
    are off limits, the global reserve returns [true] with the unit
    [INT_MIN], which is below 0. *)
Lemma unit_out_of_range_beyond_int_range :
  let s := every_index_off_limits in
  let r := reserveTextureImageUnit (INT_MAX + 2) None s in
  reachable s ∧ ok r = true ∧ out r = -2147483648 ∧
  ¬ fails_only_exhausted (INT_MAX + 2) (taken_global s) (ok r) (out r).
Proof.
  intros s r. subst s r.
  destruct (reserve_on_every_index_off_limits None) as [Hok Hout].
  split; [apply every_index_off_limits_reachable|]. split; [exact Hok|].
  split; [exact Hout|].
  rewrite Hout. intros (_ & _ & Hrange).
  destruct (Hrange Hok) as [Hlo _]. unfold INT_MIN in Hlo. lia.
Qed.
